(** * Session bridge of the RealtimeSTT WebSocket server

    A shallow embedding of [src/server/realtimestt.py]: the audio frame
    adapter ([float32_to_int16] over numpy float32 arrays), the callbacks that
    build outbound messages, the message queue with its sender task, and the
    receive loop of [handler] with its [finally] block.

    What the program calls but does not define is modelled as follows.
    - numpy: a float32 is a binary32 value of the Standard Library's
      [SpecFloat]; the product is [SFmul] (round to nearest even), the
      conversion to int16 drops the fraction, bytes are little-endian.
    - [json.loads]: the decoder of the C scanner, a recursive descent over
      Python's JSON grammar on code points. It returns a value, raises
      [json.JSONDecodeError], or runs into a limit of the interpreter:
      [RecursionError] on nesting deeper than the recursion limit allows,
      [ValueError] on an integer of more digits than [int] converts. Both
      limits are parameters ([interpreter]), and every theorem holds for
      every value of them.
    - [uuid.uuid4()]: the identifier drawn is carried by the callback event.
    - [json.dumps]: the queue holds the response dict; its text is not built.
    - The recognition engine, the event loop and the WebSocket: their moves
      are the events of a schedule, and every theorem about a run holds for
      every schedule. *)

From Stdlib Require Import Strings.String Strings.Ascii.
From Stdlib Require Import ZArith QArith Qabs List Bool Lia Strings.Byte.
From Stdlib Require Import Floats.SpecFloat.
Import ListNotations.
Open Scope Z_scope.

(** ** Bytes *)

Definition Z_of_byte (b : byte) : Z := Z.of_N (Byte.to_N b).

(** The byte holding the low eight bits of [z]. *)
Definition byte_of_Z (z : Z) : byte :=
  match Byte.of_N (Z.to_N (z mod 256)) with
  | Some b => b
  | None => x00
  end.

(** ** numpy float32

    A float32 is an IEEE-754 binary32 value: [spec_float] with a 24-bit
    significand and exponent bound 128. *)

Definition prec32 : Z := 24.
Definition emax32 : Z := 128.
Definition float32 : Type := spec_float.

Definition is_float32 (x : float32) : bool := valid_binary prec32 emax32 x.

(** The binary32 value of a 32-bit pattern: sign bit 31, biased exponent in
    bits 30..23, fraction in bits 22..0. *)
Definition float32_of_bits (w : Z) : float32 :=
  let s := Z.testbit w 31 in
  let e := Z.land (Z.shiftr w 23) 255 in
  let m := Z.land w (2 ^ 23 - 1) in
  if e =? 0 then
    match m with
    | Zpos p => S754_finite s p (-149)
    | _ => S754_zero s
    end
  else if e =? 255 then
    if m =? 0 then S754_infinity s else S754_nan
  else
    match m + 2 ^ 23 with
    | Zpos p => S754_finite s p (e - 150)
    | _ => S754_nan
    end.

(** Four bytes of a buffer read as one little-endian 32-bit word. *)
Definition le32 (b0 b1 b2 b3 : byte) : Z :=
  Z_of_byte b0 + 2 ^ 8 * Z_of_byte b1 + 2 ^ 16 * Z_of_byte b2 + 2 ^ 24 * Z_of_byte b3.

(** [np.frombuffer(message, dtype=np.float32)]: the buffer is cut into items of
    four bytes; [None] is numpy's [ValueError] ("buffer size must be a multiple
    of element size"). *)
Fixpoint frombuffer (message : list byte) : option (list float32) :=
  match message with
  | [] => Some []
  | b0 :: b1 :: b2 :: b3 :: rest =>
      match frombuffer rest with
      | Some a => Some (float32_of_bits (le32 b0 b1 b2 b3) :: a)
      | None => None
      end
  | _ => None
  end.

(** The Python int [32767] as the float32 scalar numpy multiplies with. *)
Definition f32_32767 : float32 := binary_normalize prec32 emax32 32767 0 false.

(** [audio_float32 * 32767]: the elementwise binary32 product, rounded to
    nearest even. *)
Definition mul_32767 (audio_float32 : list float32) : list float32 :=
  map (fun s => SFmul prec32 emax32 s f32_32767) audio_float32.

(** The integer a finite float becomes when its fraction is dropped (the C
    conversion of a float to an integer type rounds toward zero). [Z.shiftl]
    by a negative amount shifts right. *)
Definition trunc_toward_zero (x : float32) : option Z :=
  match x with
  | S754_zero _ => Some 0
  | S754_finite s m e => Some (cond_Zopp s (Z.shiftl (Zpos m) e))
  | S754_infinity _ | S754_nan => None
  end.

(** The 16-bit two's complement reading of the low 16 bits of [z]. *)
Definition wrap_int16 (z : Z) : Z := (z + 32768) mod 65536 - 32768.

(** [.astype(np.int16)] on one element. The conversion drops the fraction; a
    value that fits 32 bits keeps its low 16 bits. C leaves the conversion of
    NaN, of an infinity and of a value beyond 32 bits undefined: numpy does not
    raise there, and the element stored is the platform's (0 on x86-64, the
    value taken here). *)
Definition astype_int16 (x : float32) : Z :=
  match trunc_toward_zero x with
  | Some z =>
      if (- 2 ^ 31 <=? z) && (z <? 2 ^ 31) then wrap_int16 z else 0
  | None => 0
  end.

(** The two bytes of an int16 element, low byte first. *)
Definition int16_bytes (z : Z) : list byte :=
  [byte_of_Z z; byte_of_Z (Z.shiftr z 8)].

(** [.tobytes()] of an int16 array. *)
Definition tobytes (a : list Z) : list byte := flat_map int16_bytes a.

(** [float32_to_int16]: [(audio_float32 * 32767).astype(np.int16).tobytes()]. *)
Definition float32_to_int16 (audio_float32 : list float32) : list byte :=
  tobytes (map astype_int16 (mul_32767 audio_float32)).

(** Reading two bytes back as a little-endian 16-bit signed integer. *)
Definition int16_of_bytes (lo hi : byte) : Z :=
  wrap_int16 (Z_of_byte lo + 2 ^ 8 * Z_of_byte hi).

(** The rational a float32 stands for; NaN and the infinities stand for none. *)
Definition float32_value (x : float32) : option Q :=
  match x with
  | S754_zero _ => Some 0%Q
  | S754_finite s m e =>
      Some (match e with
            | Zneg k => Qmake (cond_Zopp s (Zpos m)) (2 ^ k)%positive
            | _ => inject_Z (cond_Zopp s (Zpos m) * 2 ^ e)
            end)
  | S754_infinity _ | S754_nan => None
  end.

(** A sample in the range [-1.0, 1.0]. *)
Definition in_unit_range (s : float32) : bool :=
  match float32_value s with
  | Some q => Qle_bool (Qabs q) 1
  | None => false
  end.


(** The adapter's output read back as 16-bit signed integers, two bytes per
    item, low byte first. *)
Fixpoint read_int16 (bs : list byte) : option (list Z) :=
  match bs with
  | [] => Some []
  | lo :: hi :: rest =>
      match read_int16 rest with
      | Some a => Some (int16_of_bytes lo hi :: a)
      | None => None
      end
  | _ => None
  end.

(** [z] is an integer nearest to [x], whatever the rule for ties: the reading
    of [round(x)] in the adapter's contract. *)
Definition nearest_integer (x : Q) (z : Z) : bool :=
  Qle_bool (Qabs (inject_Z z - x)) (1 # 2).

(** The integer a finite sample becomes in the adapter. *)
Definition sample_to_int16 (s : float32) : Z :=
  astype_int16 (SFmul prec32 emax32 s f32_32767).

(** An array whose samples all lie in [-1.0, 1.0]. *)
Definition unit_range_array (a : list float32) : Prop :=
  Forall (fun s => in_unit_range s = true) a.

(** ** Python strings

    A [str] is a sequence of Unicode code points. *)

Definition pystr : Type := list N.

(** The code points of an ASCII literal. *)
Definition str (s : String.string) : pystr :=
  map Ascii.N_of_ascii (String.list_ascii_of_string s).

(** The same, with every apostrophe read as a double quote: the way JSON
    texts are written down in the examples of this file. *)
Definition json_text (s : String.string) : pystr :=
  map (fun c => if (c =? 39)%N then 34%N else c) (str s).

Fixpoint pystr_eqb (a b : pystr) : bool :=
  match a, b with
  | [], [] => true
  | x :: a', y :: b' => (x =? y)%N && pystr_eqb a' b'
  | _, _ => false
  end.

(** [str.isspace] on one code point: the characters [str.strip()] removes. *)
Definition isspace (c : N) : bool :=
  ((9 <=? c) && (c <=? 13) || (28 <=? c) && (c <=? 32)
   || (c =? 133) || (c =? 160) || (c =? 5760)
   || (8192 <=? c) && (c <=? 8202)
   || (c =? 8232) || (c =? 8233) || (c =? 8239) || (c =? 8287)
   || (c =? 12288))%N.

Fixpoint lstrip (s : pystr) : pystr :=
  match s with
  | c :: r => if isspace c then lstrip r else s
  | [] => []
  end.

(** [text.strip()]. *)
Definition strip (s : pystr) : pystr := rev (lstrip (rev (lstrip s))).

(** Truth value of a [str]: non-empty. *)
Definition str_truthy (s : pystr) : bool :=
  match s with [] => false | _ :: _ => true end.

(** ** JSON values as [json.loads] builds them *)

#[local] Set Warnings "-register-all".

(** A Python float read from a JSON text: the decimal [digits * 10 ^ exp10]
    (with its sign) that is then rounded to binary64, or one of the constants
    [NaN], [Infinity], [-Infinity] that [json.loads] accepts. *)
Inductive pyfloat : Type :=
| FDec (negative : bool) (digits : N) (exp10 : Z)
| FInf (negative : bool)
| FNaN.

Inductive json : Type :=
| JNull
| JBool (b : bool)
| JInt (z : Z)
| JFloat (f : pyfloat)
| JStr (s : pystr)
| JList (items : list json)
| JDict (pairs : list (pystr * json)).

(** [x != 0.0] for a float read from a decimal: the decimal rounds to zero
    exactly when it is at most [2 ^ -1075], half the least subnormal. *)
Definition pyfloat_truthy (f : pyfloat) : bool :=
  match f with
  | FDec _ digits exp10 =>
      negb ((digits =? 0)%N
            || (exp10 <? 0) && (Z.of_N digits * 2 ^ 1075 <=? 10 ^ (- exp10)))
  | FInf _ | FNaN => true
  end.

(** Python's truth value of a decoded JSON value, as [if data.get("EOS"):]
    tests it. *)
Definition truthy (v : json) : bool :=
  match v with
  | JNull => false
  | JBool b => b
  | JInt z => negb (z =? 0)
  | JFloat f => pyfloat_truthy f
  | JStr s => str_truthy s
  | JList items => match items with [] => false | _ :: _ => true end
  | JDict pairs => match pairs with [] => false | _ :: _ => true end
  end.

(** [d.get(key)] on the pairs of a JSON object in source order: a repeated
    key keeps its last value; a missing key gives [None]. *)
Definition dict_get (key : pystr) (pairs : list (pystr * json)) : json :=
  match find (fun kv => pystr_eqb (fst kv) key) (rev pairs) with
  | Some (_, v) => v
  | None => JNull
  end.

(** ** [json.loads] *)

Definition is_ws (c : N) : bool :=
  ((c =? 32) || (c =? 9) || (c =? 10) || (c =? 13))%N.

Fixpoint skip_ws (s : pystr) : pystr :=
  match s with
  | c :: r => if is_ws c then skip_ws r else s
  | [] => []
  end.

Definition is_digit (c : N) : bool := ((48 <=? c) && (c <=? 57))%N.

Definition hex_val (c : N) : option N :=
  if is_digit c then Some (c - 48)%N
  else if ((97 <=? c) && (c <=? 102))%N then Some (c - 87)%N
  else if ((65 <=? c) && (c <=? 70))%N then Some (c - 55)%N
  else None.

Definition hex4 (a b c d : N) : option N :=
  match hex_val a, hex_val b, hex_val c, hex_val d with
  | Some x, Some y, Some z, Some w => Some (((x * 16 + y) * 16 + z) * 16 + w)%N
  | _, _, _, _ => None
  end.

(** The character a one-letter escape stands for. *)
Definition simple_escape (c : N) : option N :=
  if (c =? 34)%N then Some 34%N          (* quote *)
  else if (c =? 92)%N then Some 92%N     (* backslash *)
  else if (c =? 47)%N then Some 47%N     (* slash *)
  else if (c =? 98)%N then Some 8%N      (* b: backspace *)
  else if (c =? 102)%N then Some 12%N    (* f: form feed *)
  else if (c =? 110)%N then Some 10%N    (* n: line feed *)
  else if (c =? 114)%N then Some 13%N    (* r: carriage return *)
  else if (c =? 116)%N then Some 9%N     (* t: tab *)
  else None.

Definition is_high_surrogate (c : N) : bool := ((55296 <=? c) && (c <=? 56319))%N.
Definition is_low_surrogate (c : N) : bool := ((56320 <=? c) && (c <=? 57343))%N.
Definition join_surrogates (hi lo : N) : N :=
  (65536 + ((hi - 55296) * 1024 + (lo - 56320)))%N.

Definition cons_char (c : N) (r : option (pystr * pystr)) : option (pystr * pystr) :=
  match r with
  | Some (s, rest) => Some (c :: s, rest)
  | None => None
  end.

(** [scanstring] (strict): the text after an opening quote up to the closing
    one, with escapes decoded; the result pairs the string with the text that
    follows it. [None] is a [JSONDecodeError]. *)
Fixpoint scanstring (s : pystr) : option (pystr * pystr) :=
  match s with
  | [] => None
  | c :: r =>
      if (c =? 34)%N then Some ([], r)
      else if (c =? 92)%N then
        match r with
        | [] => None
        | e :: r1 =>
            if (e =? 117)%N then
              match r1 with
              | a :: b :: c1 :: d :: r2 =>
                  match hex4 a b c1 d with
                  | None => None
                  | Some u =>
                      if is_high_surrogate u then
                        match r2 with
                        | bs :: uu :: a2 :: b2 :: c2 :: d2 :: r3 =>
                            if ((bs =? 92) && (uu =? 117))%N then
                              match hex4 a2 b2 c2 d2 with
                              | None => None
                              | Some u2 =>
                                  if is_low_surrogate u2
                                  then cons_char (join_surrogates u u2) (scanstring r3)
                                  else cons_char u (scanstring r2)
                              end
                            else cons_char u (scanstring r2)
                        | _ => cons_char u (scanstring r2)
                        end
                      else cons_char u (scanstring r2)
                  end
              | _ => None
              end
            else
              match simple_escape e with
              | Some ch => cons_char ch (scanstring r1)
              | None => None
              end
        end
      else if (c <? 32)%N then None
      else cons_char c (scanstring r)
  end.

(** The longest run of decimal digits at the head of a text, and what follows. *)
Fixpoint span_digits (s : pystr) : pystr * pystr :=
  match s with
  | c :: r =>
      if is_digit c then let (ds, rest) := span_digits r in (c :: ds, rest)
      else ([], s)
  | [] => ([], [])
  end.

Definition digits_value (ds : pystr) : N :=
  fold_left (fun acc d => (10 * acc + (d - 48))%N) ds 0%N.

(** The exponent part [e|E [+|-] digits] when the text starts with one. *)
Definition match_exponent (s : pystr) : option (Z * pystr) :=
  match s with
  | c :: r =>
      if ((c =? 101) || (c =? 69))%N then
        let (neg, r1) :=
          match r with
          | sg :: r' =>
              if (sg =? 45)%N then (true, r')
              else if (sg =? 43)%N then (false, r')
              else (false, r)
          | [] => (false, r)
          end in
        match span_digits r1 with
        | ([], _) => None
        | (ds, rest) =>
            Some (cond_Zopp neg (Z.of_N (digits_value ds)), rest)
        end
      else None
  | [] => None
  end.

(** The fraction part [. digits] when the text starts with one. *)
Definition match_fraction (s : pystr) : option (pystr * pystr) :=
  match s with
  | c :: r =>
      if (c =? 46)%N then
        match span_digits r with
        | ([], _) => None
        | (ds, rest) => Some (ds, rest)
        end
      else None
  | [] => None
  end.

(** ** The interpreter's limits

    Two limits of the interpreter decide what [json.loads] does on large
    texts; the program sets neither, so they are parameters of the model.
    [int_max_str_digits] is [sys.get_int_max_str_digits()]: 4300 unless
    changed, and 0 where there is no limit (switched off, or an interpreter
    that predates it). [recursion_budget] is the number of levels of
    recursion the scanner has where [handler] calls the decoder: what the
    recursion limit (1000 unless changed) leaves above the stack in use.
    The scanner takes one level for every array or object it is inside of
    ([Py_EnterRecursiveCall]), and on top of them [constant_levels] to look
    up [NaN], [Infinity] or [-Infinity] (the call of [parse_constant]: 1 in
    CPython 3.11) and [error_levels] to build a [JSONDecodeError] where it
    stands (the call of the class, its [__init__] and [ValueError.__init__]
    in it: 3 in CPython 3.11). Without the levels for one of them it raises
    [RecursionError] instead. *)
Record interpreter : Type := {
  int_max_str_digits : N;
  recursion_budget : nat;
  constant_levels : nat;
  error_levels : nat
}.

(** The interpreter of the examples: CPython 3.11 with its default limits
    and 960 levels left for the scanner. *)
Definition cpython : interpreter :=
  {| int_max_str_digits := 4300; recursion_budget := 960;
     constant_levels := 1; error_levels := 3 |}.

(** Exceptions raised in the body of the receive loop that [handler] does
    not catch. [json.JSONDecodeError], which it catches, is not among them. *)
Inductive exn : Type :=
| ValueError         (* np.frombuffer: a size that is no multiple of 4;
                        int: more digits than the interpreter converts *)
| AttributeError     (* data.get on a decoded value that is no dict *)
| RecursionError.    (* the decoder nested deeper than the interpreter allows *)

(** The outcome of scanning one value: the value and the text after it, a
    [JSONDecodeError] (raised by the scanner, or by [raw_decode] when the
    scanner finds no value and raises [StopIteration]), another exception,
    or the recursion bound of the model reached. *)
Inductive scan_result : Type :=
| Scanned (v : json) (rest : pystr)
| DecodeError
| ScanRaised (e : exn)
| OutOfFuel.

(** A [JSONDecodeError] that the scanner raises itself, with [depth] levels
    of recursion left. *)
Definition errmsg (py : interpreter) (depth : nat) : scan_result :=
  if (error_levels py <=? depth)%nat then DecodeError
  else ScanRaised RecursionError.

(** One of the constants [NaN], [Infinity], [-Infinity], looked up with
    [depth] levels of recursion left. *)
Definition parse_constant (py : interpreter) (depth : nat) (f : pyfloat)
    (rest : pystr) : scan_result :=
  if (constant_levels py <=? depth)%nat then Scanned (JFloat f) rest
  else ScanRaised RecursionError.

(** [int(text)] on a run of [digits] decimal digits raises [ValueError]
    when a limit is set and the run is longer; runs of at most 640 digits are
    converted without looking at the limit. *)
Definition int_too_long (py : interpreter) (digits : nat) : bool :=
  ((640 <? N.of_nat digits) && (0 <? int_max_str_digits py)
   && (int_max_str_digits py <? N.of_nat digits))%N.

(** A JSON number at the head of the text: an optional minus sign, then a
    single zero or a run of digits that starts with a non-zero one, then an
    optional fraction and exponent; a [float] with them, and without them an
    [int], which the interpreter converts within its limit of digits. *)
Definition match_number (py : interpreter) (s : pystr) : scan_result :=
  let (neg, s1) :=
    match s with
    | c :: r => if (c =? 45)%N then (true, r) else (false, s)
    | [] => (false, s)
    end in
  match s1 with
  | c :: r =>
      if is_digit c then
        let (ids, s2) := if (c =? 48)%N then ([c], r) else span_digits s1 in
        let '(fds, s3, has_frac) :=
          match match_fraction s2 with
          | Some (fds, s3) => (fds, s3, true)
          | None => ([], s2, false)
          end in
        match match_exponent s3 with
        | Some (e, s4) =>
            Scanned (JFloat (FDec neg (digits_value (ids ++ fds))
                               (e - Z.of_nat (length fds)))) s4
        | None =>
            if has_frac
            then Scanned (JFloat (FDec neg (digits_value (ids ++ fds))
                                    (- Z.of_nat (length fds)))) s3
            else if int_too_long py (length ids)
            then ScanRaised ValueError
            else Scanned (JInt (cond_Zopp neg (Z.of_N (digits_value ids)))) s3
        end
      else DecodeError
  | [] => DecodeError
  end.

(** [Some rest] when the text starts with [prefix]. *)
Fixpoint strip_prefix (prefix s : pystr) : option pystr :=
  match prefix, s with
  | [], _ => Some s
  | p :: prefix', c :: s' => if (p =? c)%N then strip_prefix prefix' s' else None
  | _ :: _, [] => None
  end.

(** A value that is no string, object or array: one of the constants
    [null], [true], [false], [NaN], [Infinity], [-Infinity], or a number. *)
Definition scan_atom (py : interpreter) (depth : nat) (s : pystr)
    : scan_result :=
  match strip_prefix (str "null") s with
  | Some rest => Scanned JNull rest
  | None =>
  match strip_prefix (str "true") s with
  | Some rest => Scanned (JBool true) rest
  | None =>
  match strip_prefix (str "false") s with
  | Some rest => Scanned (JBool false) rest
  | None =>
  match strip_prefix (str "NaN") s with
  | Some rest => parse_constant py depth FNaN rest
  | None =>
  match strip_prefix (str "Infinity") s with
  | Some rest => parse_constant py depth (FInf false) rest
  | None =>
  match strip_prefix (str "-Infinity") s with
  | Some rest => parse_constant py depth (FInf true) rest
  | None => match_number py s
  end end end end end end.

(** [scan_once], with the object and array loops of the decoder. [depth] is
    the number of levels of recursion left: entering an object or an array
    takes one, and raises [RecursionError] when none is left. Where no value
    starts the scanner raises [StopIteration], which [raw_decode] turns
    into a [JSONDecodeError]; its other errors it raises itself ([errmsg]).
    [fuel] only bounds the recursion of the model; [json_loads] passes more
    than the text's length, which is never used up. *)
Fixpoint scan_once (py : interpreter) (fuel depth : nat) (s : pystr)
    {struct fuel} : scan_result :=
  match fuel with
  | O => OutOfFuel
  | S fuel' =>
      match s with
      | [] => DecodeError
      | c :: r =>
          if (c =? 34)%N then
            match scanstring r with
            | Some (v, rest) => Scanned (JStr v) rest
            | None => errmsg py depth
            end
          else if (c =? 123)%N then
            match depth with
            | O => ScanRaised RecursionError
            | S depth' =>
                match skip_ws r with
                | c1 :: r1 =>
                    if (c1 =? 125)%N then Scanned (JDict []) r1
                    else parse_pairs py fuel' depth' (c1 :: r1) []
                | [] => errmsg py depth'
                end
            end
          else if (c =? 91)%N then
            match depth with
            | O => ScanRaised RecursionError
            | S depth' =>
                match skip_ws r with
                | c1 :: r1 =>
                    if (c1 =? 93)%N then Scanned (JList []) r1
                    else parse_items py fuel' depth' (c1 :: r1) []
                | [] => DecodeError
                end
            end
          else scan_atom py depth s
      end
  end

(** The pairs of an object, from the opening quote of a key on. *)
with parse_pairs (py : interpreter) (fuel depth : nat) (s : pystr)
       (acc : list (pystr * json)) {struct fuel} : scan_result :=
  match fuel with
  | O => OutOfFuel
  | S fuel' =>
      match s with
      | c :: r =>
          if (c =? 34)%N then
            match scanstring r with
            | None => errmsg py depth
            | Some (key, r1) =>
                match skip_ws r1 with
                | c2 :: r2 =>
                    if (c2 =? 58)%N then
                      match scan_once py fuel' depth (skip_ws r2) with
                      | Scanned v r3 =>
                          match skip_ws r3 with
                          | c3 :: r4 =>
                              if (c3 =? 125)%N
                              then Scanned (JDict (rev ((key, v) :: acc))) r4
                              else if (c3 =? 44)%N
                              then parse_pairs py fuel' depth (skip_ws r4)
                                     ((key, v) :: acc)
                              else errmsg py depth
                          | [] => errmsg py depth
                          end
                      | DecodeError => DecodeError
                      | ScanRaised e => ScanRaised e
                      | OutOfFuel => OutOfFuel
                      end
                    else errmsg py depth
                | [] => errmsg py depth
                end
            end
          else errmsg py depth
      | [] => errmsg py depth
      end
  end

(** The items of an array, from the first character of an item on. *)
with parse_items (py : interpreter) (fuel depth : nat) (s : pystr)
       (acc : list json) {struct fuel} : scan_result :=
  match fuel with
  | O => OutOfFuel
  | S fuel' =>
      match scan_once py fuel' depth s with
      | Scanned v r1 =>
          match skip_ws r1 with
          | c :: r2 =>
              if (c =? 93)%N then Scanned (JList (rev (v :: acc))) r2
              else if (c =? 44)%N
              then parse_items py fuel' depth (skip_ws r2) (v :: acc)
              else errmsg py depth
          | [] => errmsg py depth
          end
      | DecodeError => DecodeError
      | ScanRaised e => ScanRaised e
      | OutOfFuel => OutOfFuel
      end
  end.

(** What [json.loads(message)] does: it returns the decoded value, raises
    the [json.JSONDecodeError] that [handler] catches, or raises another
    exception. *)
Inductive loads_result : Type :=
| Value (v : json)
| JSONDecodeError
| Raised (e : exn).

(** [json.loads]: leading whitespace, one value, trailing whitespace, nothing
    else. *)
Definition json_loads (py : interpreter) (message : pystr) : loads_result :=
  let s := skip_ws message in
  match scan_once py (2 * length s + 2) (recursion_budget py) s with
  | Scanned v rest =>
      match skip_ws rest with
      | [] => Value v
      | _ :: _ => JSONDecodeError
      end
  | ScanRaised e => Raised e
  | DecodeError | OutOfFuel => JSONDecodeError
  end.

(** ** Proof automation for the scanner *)

(** Case analysis on the first [match] found in a hypothesis or the goal. *)
Ltac break_match :=
  match goal with
  | H : context [match ?x with _ => _ end] |- _ => destruct x eqn:?
  | |- context [match ?x with _ => _ end] => destruct x eqn:?
  end.

(** Records, with the lemma [Hlen], that skipping whitespace never
    lengthens any text whose [skip_ws] occurs in the context. *)
Ltac note_skip_ws Hlen :=
  repeat match goal with
         | H : context [skip_ws ?x] |- _ =>
             lazymatch goal with
             | _ : (length (skip_ws x) <= length x)%nat |- _ => fail
             | _ => pose proof (Hlen x)
             end
         | |- context [skip_ws ?x] =>
             lazymatch goal with
             | _ : (length (skip_ws x) <= length x)%nat |- _ => fail
             | _ => pose proof (Hlen x)
             end
         end.

(** Turns the results of the scanner's parts into facts about lengths, with
    the lemmas for strings, whitespace and atoms. *)
Ltac shorter_facts Hstring Hws Hatom :=
  repeat match goal with
         | E : scanstring _ = Some _ |- _ => apply Hstring in E
         | E : skip_ws _ = _ :: _ |- _ => apply Hws in E
         | E : scan_atom _ _ _ = Scanned _ _ |- _ => apply Hatom in E
         end.

(** The same for the recursive scanner at a given fuel, with the lemma
    [Hscan] about all three of its functions. *)
Ltac scanned_facts fuel Hscan :=
  repeat match goal with
         | E : scan_once _ fuel _ _ = Scanned _ _ |- _ =>
             apply (proj1 (Hscan fuel)) in E
         | E : parse_pairs _ fuel _ _ _ = Scanned _ _ |- _ =>
             apply (proj1 (proj2 (Hscan fuel))) in E
         | E : parse_items _ fuel _ _ _ = Scanned _ _ |- _ =>
             apply (proj2 (proj2 (Hscan fuel))) in E
         end.


(** ** The session of one connection ([handler])

    The handler's coroutine, the sender task, the recorder thread and the
    engine's realtime thread run concurrently; the model is a transition
    system whose schedule, a list of events, says which of them takes its next
    step. The recognition engine and the WebSocket are outside the program:
    what they do (a callback invoked with a text, a frame delivered, the
    connection closing) is what the events carry. *)

(** A message of the WebSocket: [bytes] or [str]. *)
Inductive frame : Type :=
| Binary (data : list byte)
| Text (data : pystr).

(** The [segment] dict of [send_update_sync]. *)
Record segment : Type := {
  seg_id : pystr;
  seg_type : pystr;
  seg_text : pystr;
  seg_completed : bool
}.

(** The [response] dict of [send_update_sync]. [json.dumps] turns it into the
    text that is queued and sent; the dict stands for that text here. *)
Record response : Type := {
  resp_uid : pystr;
  resp_segments : list segment;
  resp_status : pystr
}.

Definition segment_json (g : segment) : json :=
  JDict [(str "id", JStr (seg_id g)); (str "type", JStr (seg_type g));
         (str "text", JStr (seg_text g)); (str "completed", JBool (seg_completed g))].

(** The value handed to [json.dumps]. *)
Definition response_json (r : response) : json :=
  JDict [(str "uid", JStr (resp_uid r));
         (str "segments", JList (map segment_json (resp_segments r)));
         (str "status", JStr (resp_status r))].

(** Calls the handler makes on the recorder, the sender task and the recorder
    thread, in the order made. *)
Inductive call : Type :=
| FeedAudio (pcm : list byte)      (* recorder.feed_audio(pcm) *)
| Stop                             (* recorder.stop() *)
| SenderCancel                     (* sender.cancel() *)
| Shutdown                         (* recorder.shutdown() *)
| Join (timeout : Z).              (* recorder_thread.join(timeout=...) *)

Inductive log_record : Type :=
| InfoFinalTranscription (text : pystr)
| InfoEndOfStream
| WarningNonJSON (message : pystr)
| InfoConnectionClosed
| InfoCleaningUp.

(** Where the handler's coroutine stands: iterating over the websocket, or
    gone through [finally] and returned ([None]) or left by the exception. *)
Inductive receive_state : Type :=
| Receiving
| Exited (raised : option exn).

Inductive task_state : Type :=
| Running
| Finished     (* sender_task left its loop on ConnectionClosed *)
| Cancelled.

Record session : Type := {
  uid : pystr;
  receive : receive_state;
  calls : list call;
  log : list log_record;
  scheduled : list response;      (* call_soon_threadsafe callbacks not yet run *)
  message_queue : list response;  (* asyncio.Queue, oldest first *)
  sender : task_state;
  transport : list response       (* what websocket.send has written, oldest first *)
}.

(** The session as [handler] has set it up when it enters the receive loop. *)
Definition new_session (uid : pystr) : session :=
  {| uid := uid; receive := Receiving; calls := []; log := [];
     scheduled := []; message_queue := []; sender := Running; transport := [] |}.

Definition add_call (c : call) (st : session) : session :=
  {| uid := uid st; receive := receive st; calls := calls st ++ [c];
     log := log st; scheduled := scheduled st;
     message_queue := message_queue st; sender := sender st;
     transport := transport st |}.

Definition add_log (l : log_record) (st : session) : session :=
  {| uid := uid st; receive := receive st; calls := calls st;
     log := log st ++ [l]; scheduled := scheduled st;
     message_queue := message_queue st; sender := sender st;
     transport := transport st |}.

Definition set_receive (r : receive_state) (st : session) : session :=
  {| uid := uid st; receive := r; calls := calls st;
     log := log st; scheduled := scheduled st;
     message_queue := message_queue st; sender := sender st;
     transport := transport st |}.

Definition set_sender (t : task_state) (st : session) : session :=
  {| uid := uid st; receive := receive st; calls := calls st;
     log := log st; scheduled := scheduled st;
     message_queue := message_queue st; sender := t;
     transport := transport st |}.

(** The dict [send_update_sync] builds; [id] is the [uuid.uuid4()] drawn. *)
Definition make_response (uid segment_type text : pystr) (completed : bool)
    (id : pystr) : response :=
  {| resp_uid := uid;
     resp_segments := [ {| seg_id := id; seg_type := segment_type;
                           seg_text := text; seg_completed := completed |} ];
     resp_status := if completed then str "transforming" else str "listening" |}.

(** [send_update_sync]: the response is handed to the loop with
    [call_soon_threadsafe(message_queue.put_nowait, ...)]. *)
Definition send_update_sync (segment_type text : pystr) (completed : bool)
    (id : pystr) (st : session) : session :=
  {| uid := uid st; receive := receive st; calls := calls st; log := log st;
     scheduled := scheduled st
                  ++ [make_response (uid st) segment_type text completed id];
     message_queue := message_queue st; sender := sender st;
     transport := transport st |}.

(** [on_realtime_update]. *)
Definition on_realtime_update (text id : pystr) (st : session) : session :=
  if str_truthy (strip text)
  then send_update_sync (str "inprogress") text false id st
  else st.

(** [on_final_text_callback]. *)
Definition on_final_text_callback (text id : pystr) (st : session) : session :=
  if str_truthy (strip text)
  then send_update_sync (str "transcribed") text true id
         (add_log (InfoFinalTranscription text) st)
  else st.

(** The loop runs the oldest scheduled [put_nowait]. *)
Definition run_scheduled (st : session) : session :=
  match scheduled st with
  | [] => st
  | m :: rest =>
      {| uid := uid st; receive := receive st; calls := calls st; log := log st;
         scheduled := rest; message_queue := message_queue st ++ [m];
         sender := sender st; transport := transport st |}
  end.

(** One turn of [sender_task]'s loop: [get] the oldest message and [send] it;
    [send] raising [ConnectionClosed] ends the task. With an empty queue the
    task stays suspended in [get]. *)
Definition sender_task_step (transport_open : bool) (st : session) : session :=
  match sender st, message_queue st with
  | Running, m :: rest =>
      if transport_open then
        {| uid := uid st; receive := receive st; calls := calls st; log := log st;
           scheduled := scheduled st; message_queue := rest;
           sender := Running; transport := transport st ++ [m] |}
      else
        {| uid := uid st; receive := receive st; calls := calls st; log := log st;
           scheduled := scheduled st; message_queue := rest;
           sender := Finished; transport := transport st |}
  | _, _ => st
  end.

(** What one pass through the body of [async for message in websocket] does. *)
Inductive outcome : Type :=
| Continue (st : session)
| Raise (e : exn) (st : session).

Definition receive_body (py : interpreter) (message : frame) (st : session)
    : outcome :=
  match message with
  | Binary data =>
      match frombuffer data with
      | None => Raise ValueError st
      | Some float32_array =>
          Continue (add_call (FeedAudio (float32_to_int16 float32_array)) st)
      end
  | Text data =>
      match json_loads py data with
      | JSONDecodeError => Continue (add_log (WarningNonJSON data) st)
      | Raised e => Raise e st
      | Value (JDict pairs) =>
          if truthy (dict_get (str "EOS") pairs)
          then Continue (add_call Stop (add_log InfoEndOfStream st))
          else Continue st
      | Value _ => Raise AttributeError st
      end
  end.

(** The [finally] block. *)
Definition finally_block (st : session) : session :=
  let st := add_log InfoCleaningUp st in
  let st := add_call SenderCancel
              (set_sender (match sender st with
                           | Running => Cancelled
                           | t => t
                           end) st) in
  let st := add_call Shutdown st in
  add_call (Join 2) st.

(** How the iteration over the websocket ends: the connection closed with a
    normal close code (the loop ends) or otherwise ([ConnectionClosed] is
    raised and caught by the handler's [except]). *)
Inductive close_kind : Type :=
| ClosedOK
| ClosedError.

Inductive event : Type :=
| Recv (message : frame)                 (* the websocket yields a message *)
| RecvClosed (k : close_kind)            (* the iteration ends *)
| RealtimeUpdate (text id : pystr)       (* the engine calls on_realtime_update *)
| FinalText (text id : pystr)            (* recorder.text calls on_final_text_callback *)
| RunScheduled                           (* the loop runs a scheduled put_nowait *)
| SenderStep (transport_open : bool).    (* sender_task takes a turn *)

Definition step (py : interpreter) (ev : event) (st : session) : session :=
  match ev with
  | Recv message =>
      match receive st with
      | Receiving =>
          match receive_body py message st with
          | Continue st' => st'
          | Raise e st' => set_receive (Exited (Some e)) (finally_block st')
          end
      | Exited _ => st
      end
  | RecvClosed k =>
      match receive st with
      | Receiving =>
          set_receive (Exited None)
            (finally_block
               (match k with
                | ClosedOK => st
                | ClosedError => add_log InfoConnectionClosed st
                end))
      | Exited _ => st
      end
  | RealtimeUpdate text id => on_realtime_update text id st
  | FinalText text id => on_final_text_callback text id st
  | RunScheduled => run_scheduled st
  | SenderStep transport_open => sender_task_step transport_open st
  end.

(** The session after a schedule. *)
Definition run (py : interpreter) (evs : list event) (st : session) : session :=
  fold_left (fun st ev => step py ev st) evs st.

(** The responses the callbacks of a schedule hand to the loop, in order. *)
Fixpoint pushed (uid : pystr) (evs : list event) : list response :=
  match evs with
  | [] => []
  | RealtimeUpdate text id :: evs' =>
      if str_truthy (strip text)
      then make_response uid (str "inprogress") text false id :: pushed uid evs'
      else pushed uid evs'
  | FinalText text id :: evs' =>
      if str_truthy (strip text)
      then make_response uid (str "transcribed") text true id :: pushed uid evs'
      else pushed uid evs'
  | _ :: evs' => pushed uid evs'
  end.

(** How often the [finally] block's calls were made. *)
Definition count_call (c : call -> bool) (st : session) : nat :=
  length (filter c (calls st)).

Definition is_stop (c : call) : bool :=
  match c with Stop => true | _ => false end.
Definition is_sender_cancel (c : call) : bool :=
  match c with SenderCancel => true | _ => false end.
Definition is_shutdown (c : call) : bool :=
  match c with Shutdown => true | _ => false end.
Definition is_join (c : call) : bool :=
  match c with Join _ => true | _ => false end.
Definition is_feed (c : call) : bool :=
  match c with FeedAudio _ => true | _ => false end.


(** A frame on which the loop body raises. *)
Definition raises (py : interpreter) (message : frame) : bool :=
  match message with
  | Binary data => match frombuffer data with None => true | Some _ => false end
  | Text data =>
      match json_loads py data with
      | JSONDecodeError | Value (JDict _) => false
      | Value _ | Raised _ => true
      end
  end.

(** An event that takes the handler out of its receive loop. *)
Definition leaves_loop (py : interpreter) (ev : event) : bool :=
  match ev with
  | RecvClosed _ => true
  | Recv message => raises py message
  | _ => false
  end.

(** The calls of the [finally] block, in order. *)
Definition teardown_calls : list call := [SenderCancel; Shutdown; Join 2].

(** A response as the two callbacks build them, for the session [uid]. *)
Definition callback_response (uid : pystr) (r : response) : Prop :=
  resp_uid r = uid
  /\ exists g,
       resp_segments r = [g]
       /\ (seg_completed g = true <-> seg_type g = str "transcribed")
       /\ (seg_completed g = false <-> seg_type g = str "inprogress")
       /\ resp_status r = (if seg_completed g then str "transforming"
                           else str "listening").

(** A text with a character that is no whitespace. *)
Definition has_visible_char (text : pystr) : bool :=
  existsb (fun c => negb (isspace c)) text.

(** Every response handed to the loop in pipeline order: written to the
    transport, lost by the one [send] that found the connection closed,
    queued, or scheduled. *)
Definition in_flight (st : session) (lost : list response) : list response :=
  transport st ++ lost ++ message_queue st ++ scheduled st.

(** No call of the [finally] block among [cs]. *)
Definition no_teardown (cs : list call) : bool :=
  forallb (fun c => negb (is_sender_cancel c || is_shutdown c || is_join c)) cs.

(** The state of the receive loop against the calls made so far: while the
    handler receives, no call of the [finally] block has been made and the
    sender task is not cancelled; once it has left, they were made once, in
    order, as the last calls. *)
Definition teardown_state (st : session) : Prop :=
  match receive st with
  | Receiving => no_teardown (calls st) = true /\ sender st <> Cancelled
  | Exited _ =>
      sender st <> Running
      /\ exists before,
           calls st = before ++ teardown_calls /\ no_teardown before = true
  end.

(** ** The handler's calls as a function of the frames

    Closed forms used to state what a whole run of [handler] has called. *)

(** A text frame that the handler reads as end of stream:
    [json.loads(message).get("EOS")] is truthy. *)
Definition is_eos (py : interpreter) (message : pystr) : bool :=
  match json_loads py message with
  | Value (JDict pairs) => truthy (dict_get (str "EOS") pairs)
  | _ => false
  end.

Definition is_eos_frame (py : interpreter) (message : frame) : bool :=
  match message with
  | Text data => is_eos py data
  | Binary _ => false
  end.

(** The frames the loop body has gone through without raising: those received
    before the first event that leaves the loop. *)
Fixpoint handled_frames (py : interpreter) (evs : list event) : list frame :=
  match evs with
  | [] => []
  | Recv message :: evs' =>
      if raises py message then [] else message :: handled_frames py evs'
  | RecvClosed _ :: _ => []
  | _ :: evs' => handled_frames py evs'
  end.

(** What the loop body calls for one frame it goes through. *)
Definition frame_calls (py : interpreter) (message : frame) : list call :=
  match message with
  | Binary data =>
      match frombuffer data with
      | Some float32_array => [FeedAudio (float32_to_int16 float32_array)]
      | None => []
      end
  | Text data => if is_eos py data then [Stop] else []
  end.

(** ** [src/python/download_model.py] *)

(** [WHISPER_MODEL_URLS]. *)
Definition WHISPER_MODEL_URLS : list (pystr * pystr) :=
  [ (str "tiny.en", str "https://openaipublic.azureedge.net/main/whisper/models/d3dd57d32accea0b295c96e26691aa14d8822fac7d9d27d5dc00b4ca2826dd03/tiny.en.pt");
    (str "tiny", str "https://openaipublic.azureedge.net/main/whisper/models/65147644a518d12f04e32d6f3b26facc3f8dd46e5390956a9424a650c0ce22b9/tiny.pt");
    (str "base.en", str "https://openaipublic.azureedge.net/main/whisper/models/25a8566e1d0c1e2231d1c762132cd20e0f96a85d16145c3a00adf5d1ac670ead/base.en.pt");
    (str "base", str "https://openaipublic.azureedge.net/main/whisper/models/ed3a0b6b1c0edf879ad9b11b1af5a0e6ab5db9205f891f668f8b0e6c6326e34e/base.pt");
    (str "small.en", str "https://openaipublic.azureedge.net/main/whisper/models/f953ad0fd29cacd07d5a9eda5624af0f6bcf2258be67c92b79389873d91e0872/small.en.pt");
    (str "small", str "https://openaipublic.azureedge.net/main/whisper/models/9ecf779972d90ba49c06d968637d720dd632c55bbf19d441fb42bf17a411e794/small.pt");
    (str "medium.en", str "https://openaipublic.azureedge.net/main/whisper/models/d7440d1dc186f76616474e0ff0b3b6b879abc9d1a4926b7adfa41db2d497ab4f/medium.en.pt");
    (str "medium", str "https://openaipublic.azureedge.net/main/whisper/models/345ae4da62f9b3d59415adc60127b97c714f32e89e936602e85993674d08dcb1/medium.pt");
    (str "large-v2", str "https://openaipublic.azureedge.net/main/whisper/models/e4b87e7e0bf463eb8e6956e646f1e277e901512310def2c24bf0e11bd3c28e9a/large-v2.pt");
    (str "large-v3", str "https://openaipublic.azureedge.net/main/whisper/models/81f7c96c852ee8fc832187b0132e569d6c3065a3252ed18e56effd0b6a73e524/large-v3.pt");
    (str "large", str "https://openaipublic.azureedge.net/main/whisper/models/81f7c96c852ee8fc832187b0132e569d6c3065a3252ed18e56effd0b6a73e524/large-v3.pt") ].

(** [get_model_url]: [WHISPER_MODEL_URLS.get(model_name)]. The keys of the
    dict are distinct, so the first pair with the key is the only one. *)
Definition get_model_url (model_name : pystr) : option pystr :=
  match find (fun kv => pystr_eqb (fst kv) model_name) WHISPER_MODEL_URLS with
  | Some (_, url) => Some url
  | None => None
  end.

Definition starts_with_sep (p : pystr) : bool :=
  match p with c :: _ => (c =? 47)%N | [] => false end.

Definition ends_with_sep (p : pystr) : bool :=
  match rev p with c :: _ => (c =? 47)%N | [] => false end.

(** [os.path.join(a, b)] on POSIX: an absolute [b] replaces [a]; otherwise
    [b] is appended, after a separator unless [a] is empty or ends with one. *)
Definition path_join (a b : pystr) : pystr :=
  if starts_with_sep b then b
  else if match a with [] => true | _ :: _ => ends_with_sep a end then a ++ b
  else a ++ 47%N :: b.

(** What [download_model] does to the world outside, in order. *)
Inductive dl_effect : Type :=
| Makedirs (path : pystr)                 (* os.makedirs(path, exist_ok=True) *)
| PrintAlreadyExists (path : pystr)
| PrintDownloading (model_name url path : pystr)
| RunProcess (args : list pystr)          (* subprocess.run(args, check=True) *)
| PrintFailed.

(** How the [wget] process ends: with exit status 0 and the file written, or
    in a way that makes [subprocess.run] raise (a non-zero status, [wget] not
    found); a failed run may or may not leave a file at the output path. *)
Inductive wget_result : Type :=
| WgetDone
| WgetFailed (leaves_file : bool).

Inductive dl_exn : Type :=
| UnknownModelName (model_name : pystr)   (* ValueError *)
| MakedirsError.                          (* OSError out of os.makedirs *)

Inductive dl_outcome : Type :=
| DlReturn (path : option pystr)
| DlRaise (e : dl_exn).

(** The paths [os.path.exists] finds, and the effects so far. *)
Record dl_world : Type := {
  existing : list pystr;
  effects : list dl_effect
}.

Definition path_exists (path : pystr) (w : dl_world) : bool :=
  existsb (pystr_eqb path) (existing w).

Definition dl_do (e : dl_effect) (w : dl_world) : dl_world :=
  {| existing := existing w; effects := effects w ++ [e] |}.

Definition dl_create (path : pystr) (w : dl_world) : dl_world :=
  {| existing := path :: existing w; effects := effects w |}.

(** [download_model]. [makedirs_ok] says whether [os.makedirs] returns, and
    [wget] how the download ends when it is run. *)
Definition download_model (makedirs_ok : bool) (wget : wget_result)
    (model_name output_dir : pystr) (w : dl_world) : dl_outcome * dl_world :=
  match get_model_url model_name with
  | None => (DlRaise (UnknownModelName model_name), w)
  | Some [] => (DlRaise (UnknownModelName model_name), w)
  | Some url =>
      let w := dl_do (Makedirs output_dir) w in
      if negb makedirs_ok then (DlRaise MakedirsError, w)
      else
        let output_path := path_join output_dir (model_name ++ str ".pt") in
        if path_exists output_path w
        then (DlReturn (Some output_path), dl_do (PrintAlreadyExists output_path) w)
        else
          let w := dl_do (PrintDownloading model_name url output_path) w in
          let w := dl_do (RunProcess [str "wget"; str "-O"; output_path; url]) w in
          match wget with
          | WgetDone => (DlReturn (Some output_path), dl_create output_path w)
          | WgetFailed leaves_file =>
              (DlReturn None,
               dl_do PrintFailed
                 (if leaves_file then dl_create output_path w else w))
          end
  end.

Definition is_run_process (e : dl_effect) : bool :=
  match e with RunProcess _ => true | _ => false end.

(** The names [download_model] knows. *)
Definition known_model_names : list pystr := map fst WHISPER_MODEL_URLS.

(** * Facts about the audio frame adapter *)

Section RoundingFacts.

Lemma digits2_pos_lower (p : positive) :
  2 ^ (Zpos (digits2_pos p) - 1) <= Zpos p.
Proof.
  induction p as [p IH | p IH |]; cbn [digits2_pos]; try (cbn; lia).
  - rewrite Pos2Z.inj_succ.
    replace (Z.succ (Zpos (digits2_pos p)) - 1) with (Z.succ (Zpos (digits2_pos p) - 1)) by lia.
    rewrite Z.pow_succ_r by lia. lia.
  - rewrite Pos2Z.inj_succ.
    replace (Z.succ (Zpos (digits2_pos p)) - 1) with (Z.succ (Zpos (digits2_pos p) - 1)) by lia.
    rewrite Z.pow_succ_r by lia. lia.
Qed.

Lemma iter_pos_nat {A : Type} (f : A -> A) (p : positive) (x : A) :
  iter_pos f p x = Nat.iter (Pos.to_nat p) f x.
Proof.
  revert x; induction p as [p IH | p IH |]; intro x; cbn [iter_pos].
  - rewrite !IH, Pos2Nat.inj_xI.
    rewrite <- Nat.iter_add, <- Nat.iter_succ_r. f_equal. lia.
  - rewrite !IH, Pos2Nat.inj_xO, <- Nat.iter_add. f_equal. lia.
  - reflexivity.
Qed.

(** One right shift halves the mantissa, records the bit that fell off and
    folds the previous round bit into the sticky bit. *)
Lemma shr_1_spec (mrs : shr_record) :
  0 <= shr_m mrs ->
  shr_m (shr_1 mrs) = shr_m mrs / 2
  /\ shr_r (shr_1 mrs) = Z.odd (shr_m mrs)
  /\ shr_s (shr_1 mrs) = shr_r mrs || shr_s mrs.
Proof.
  destruct mrs as [m r s]; cbn [shr_m shr_r shr_s shr_1]; intro Hm.
  destruct m as [| [p | p |] | p]; cbn [shr_m shr_r shr_s]; try lia.
  - repeat split.
  - repeat split. rewrite Pos2Z.inj_xI. apply Z.div_unique with 1; lia.
  - repeat split. rewrite Pos2Z.inj_xO. apply Z.div_unique with 0; lia.
  - repeat split.
Qed.

(** After [k] right shifts of an exact mantissa [M] the record holds the
    quotient by [2 ^ k], and both extra bits are clear when nothing was lost. *)
Lemma shr_iter_spec (M : Z) (k : nat) :
  0 <= M ->
  let mrs := Nat.iter k shr_1 (Build_shr_record M false false) in
  shr_m mrs = M / 2 ^ Z.of_nat k
  /\ (M mod 2 ^ Z.of_nat k = 0 -> shr_r mrs = false /\ shr_s mrs = false).
Proof.
  intro HM. induction k as [| k IH].
  - cbn. rewrite Z.div_1_r. auto.
  - cbn zeta in IH |- *. rewrite Nat.iter_succ.
    destruct IH as [IHm IHe].
    set (mrs := Nat.iter k shr_1 _) in *.
    assert (Hpos : 0 <= shr_m mrs) by (rewrite IHm; apply Z.div_pos; lia).
    destruct (shr_1_spec mrs Hpos) as (Em & Er & Es).
    rewrite Nat2Z.inj_succ, Z.pow_succ_r by lia.
    assert (H2k : 0 < 2 ^ Z.of_nat k) by (apply Z.pow_pos_nonneg; lia).
    split.
    + rewrite Em, IHm, Z.div_div by lia. f_equal. lia.
    + intro Hmod.
      assert (Hdiv : M mod 2 ^ Z.of_nat k = 0 /\ (M / 2 ^ Z.of_nat k) mod 2 = 0).
      { rewrite Z.mul_comm, Z.rem_mul_r in Hmod by lia.
        pose proof (Z.mod_pos_bound M (2 ^ Z.of_nat k) H2k).
        pose proof (Z.mod_pos_bound (M / 2 ^ Z.of_nat k) 2 ltac:(lia)).
        nia. }
      destruct Hdiv as [H0 H1]. destruct (IHe H0) as [Hr Hs].
      rewrite Er, Es, Hr, Hs, IHm. split; [| reflexivity].
      rewrite Zodd_mod, H1. reflexivity.
Qed.

(** [shr] from an exact record: the mantissa is divided by [2 ^ (e' - e)],
    the exponent never decreases, and the location is exact when the
    division is. *)
Lemma shr_exact_spec (M e n : Z) (mrs : shr_record) (e' : Z) :
  0 <= M ->
  shr (Build_shr_record M false false) e n = (mrs, e') ->
  e' = e + Z.max n 0
  /\ shr_m mrs = M / 2 ^ (e' - e)
  /\ (M mod 2 ^ (e' - e) = 0 -> loc_of_shr_record mrs = loc_Exact).
Proof.
  intros HM Hshr. unfold shr in Hshr.
  destruct n as [| p | p]; inversion Hshr; subst; clear Hshr.
  - rewrite Z.add_0_r, Z.sub_diag, Z.div_1_r. auto.
  - rewrite iter_pos_nat.
    pose proof (shr_iter_spec M (Pos.to_nat p) HM) as H. cbn zeta in H.
    rewrite positive_nat_Z in H. destruct H as [Hm He].
    replace (e + Zpos p - e) with (Zpos p) by lia.
    split; [lia | split; [exact Hm |]].
    intro H0. destruct (He H0) as [Hr Hs].
    destruct (Nat.iter _ _ _) as [m r s]; cbn in *; subst; reflexivity.
  - rewrite Z.add_0_r, Z.sub_diag, Z.div_1_r. cbn. auto.
Qed.

Lemma round_nearest_even_range (m : Z) (l : location) :
  m <= round_nearest_even m l <= m + 1.
Proof.
  destruct l as [| []]; cbn; try lia. destruct (Z.even m); lia.
Qed.

Lemma round_nearest_even_exact (m : Z) : round_nearest_even m loc_Exact = m.
Proof. reflexivity. Qed.

(** What [binary_round_aux] does to an exact non-negative mantissa: one
    shift to the format's exponent, one rounding step that moves the
    mantissa up by at most one (and not at all when the shift lost nothing),
    and a second shift of the rounded mantissa. *)
Lemma binary_round_aux_exact (prec emax : Z) (sx : bool) (M E : Z) :
  0 <= M ->
  exists e1 m2 e2,
    e1 = Z.max E (fexp prec emax (Zdigits2 M + E))
    /\ M / 2 ^ (e1 - E) <= m2 <= M / 2 ^ (e1 - E) + 1
    /\ (M mod 2 ^ (e1 - E) = 0 -> m2 = M / 2 ^ (e1 - E))
    /\ e2 = Z.max e1 (fexp prec emax (Zdigits2 m2 + e1))
    /\ binary_round_aux prec emax sx M E loc_Exact =
       match m2 / 2 ^ (e2 - e1) with
       | Z0 => S754_zero sx
       | Zpos m => if e2 <=? emax - prec then S754_finite sx m e2
                   else S754_infinity sx
       | Zneg _ => S754_nan
       end.
Proof.
  intro HM. unfold binary_round_aux, shr_fexp.
  cbn [shr_record_of_loc].
  destruct (shr (Build_shr_record M false false) E _) as [mrs1 e1] eqn:H1.
  apply shr_exact_spec in H1; [| exact HM]. destruct H1 as (He1 & Hm1 & Hx1).
  set (m2 := round_nearest_even (shr_m mrs1) (loc_of_shr_record mrs1)).
  destruct (shr (Build_shr_record m2 false false) e1 _) as [mrs2 e2] eqn:H2.
  assert (Hm1pos : 0 <= shr_m mrs1).
  { rewrite Hm1. apply Z.div_pos; [lia |]. apply Z.pow_pos_nonneg; lia. }
  pose proof (round_nearest_even_range (shr_m mrs1) (loc_of_shr_record mrs1)) as Hr.
  fold m2 in Hr.
  apply shr_exact_spec in H2; [| lia]. destruct H2 as (He2 & Hm2 & _).
  exists e1, m2, e2. rewrite <- Hm1, <- Hm2.
  split; [lia |]. split; [exact Hr |]. split.
  - intro H0. unfold m2. rewrite (Hx1 H0). reflexivity.
  - split; [lia | reflexivity].
Qed.

End RoundingFacts.

Section AdapterFacts.

Lemma Z_of_byte_of_Z (z : Z) : Z_of_byte (byte_of_Z z) = z mod 256.
Proof.
  unfold Z_of_byte, byte_of_Z.
  pose proof (Z.mod_pos_bound z 256 ltac:(lia)) as Hb.
  destruct (Byte.of_N (Z.to_N (z mod 256))) as [b |] eqn:E.
  - apply Byte.to_of_N in E. rewrite E. lia.
  - apply Byte.of_N_None_iff in E. lia.
Qed.

Lemma Z_of_byte_range (b : byte) : 0 <= Z_of_byte b < 256.
Proof. unfold Z_of_byte. pose proof (Byte.to_N_bounded b). lia. Qed.

(** The two bytes written for an int16 read back as the same integer. *)
Lemma int16_bytes_read_back (z : Z) :
  -32768 <= z < 32768 ->
  int16_of_bytes (byte_of_Z z) (byte_of_Z (Z.shiftr z 8)) = z.
Proof.
  intro Hz. unfold int16_of_bytes, wrap_int16.
  rewrite !Z_of_byte_of_Z, Z.shiftr_div_pow2 by lia.
  change (2 ^ 8) with 256.
  Z.div_mod_to_equations. lia.
Qed.

Lemma wrap_int16_small (z : Z) : -32768 <= z < 32768 -> wrap_int16 z = z.
Proof. intro Hz. unfold wrap_int16. Z.div_mod_to_equations. lia. Qed.

Lemma fexp32 (x : Z) : fexp prec32 emax32 x = Z.max (x - 24) (-149).
Proof. reflexivity. Qed.

(** The heart of the adapter: for a finite sample of magnitude at most one
    (mantissa [mx], exponent [ex <= 0], [mx <= 2 ^ -ex]) the binary32 product
    with 32767 truncates to an integer [t] of magnitude at most 32767 that is
    less than one away from the exact product [mx * 32767 / 2 ^ -ex]. *)
Lemma product_truncation (sx : bool) (mx : positive) (ex : Z) :
  ex <= 0 -> Zpos mx <= 2 ^ (- ex) ->
  exists t,
    trunc_toward_zero (SFmul prec32 emax32 (S754_finite sx mx ex) f32_32767)
      = Some (cond_Zopp sx t)
    /\ 0 <= t <= 32767
    /\ Zpos mx * 32767 - 2 ^ (- ex) < t * 2 ^ (- ex) < Zpos mx * 32767 + 2 ^ (- ex).
Proof.
  intros Hex Hmx.
  change f32_32767 with (S754_finite false 16776704 (-9)).
  cbn [SFmul]. rewrite xorb_false_r.
  destruct (binary_round_aux_exact prec32 emax32 sx (Zpos (mx * 16776704)) (ex + -9))
    as (e1 & m2 & e2 & He1 & Hm2 & Hx & He2 & Hres); [lia |].
  rewrite Hres; clear Hres.
  rewrite fexp32 in He1, He2.
  rewrite Pos2Z.inj_mul in *.
  set (D := 2 ^ (- ex)) in *.
  assert (HD : 0 < D) by (apply Z.pow_pos_nonneg; lia).
  set (M := Zpos mx * 16776704) in *.
  assert (HMpos : 0 < M) by (unfold M; lia).
  (* the product has at most [24 - ex] bits *)
  assert (Hd : Zdigits2 M + (ex + -9) <= 15).
  { unfold M at 1. rewrite <- Pos2Z.inj_mul. cbn [Zdigits2].
    pose proof (digits2_pos_lower (mx * 16776704)) as Hl.
    rewrite Pos2Z.inj_mul in Hl. fold M in Hl.
    assert (Hlt : 2 ^ (Zpos (digits2_pos (mx * 16776704)) - 1) < 2 ^ (24 - ex)).
    { replace (24 - ex) with (24 + - ex) by lia.
      rewrite Z.pow_add_r by lia. fold D. change (2 ^ 24) with 16777216.
      unfold M in Hl. nia. }
    apply Z.pow_lt_mono_r_iff in Hlt; lia. }
  assert (He1r : ex + -9 <= e1 <= -9) by lia.
  set (n1 := e1 - (ex + -9)) in *.
  set (q := 2 ^ (- e1)).
  assert (Hq : 512 <= q).
  { change 512 with (2 ^ 9). apply Z.pow_le_mono_r; lia. }
  assert (Hn1q : 2 ^ n1 * q = 512 * D).
  { unfold q, D, n1. rewrite <- Z.pow_add_r by lia.
    replace (e1 - (ex + -9) + - e1) with (9 + - ex) by lia.
    rewrite Z.pow_add_r by lia. reflexivity. }
  assert (H2n : 0 < 2 ^ n1) by (apply Z.pow_pos_nonneg; unfold n1; lia).
  pose proof (Z.div_mod M (2 ^ n1) ltac:(lia)) as Hdm.
  pose proof (Z.mod_pos_bound M (2 ^ n1) H2n) as Hmb.
  set (m1 := M / 2 ^ n1) in *.
  set (r1 := M mod 2 ^ n1) in *.
  assert (Hm1 : 0 <= m1) by (apply Z.div_pos; lia).
  (* rounding never passes 32767 *)
  assert (Ha : m2 <= 32767 * q).
  { assert (HMle : M <= 32767 * q * 2 ^ n1).
    { replace (32767 * q * 2 ^ n1) with (32767 * (2 ^ n1 * q)) by ring.
      rewrite Hn1q. unfold M. lia. }
    assert (Hcase : m1 < 32767 * q \/ m1 = 32767 * q) by nia.
    destruct Hcase as [Hlt | Heq]; [lia |].
    assert (r1 = 0) as Hr0 by nia.
    rewrite (Hx Hr0). lia. }
  (* the second shift stops at a non-positive exponent *)
  assert (Hd2 : Zdigits2 m2 + e1 <= 15).
  { destruct m2 as [| p2 | p2]; cbn [Zdigits2]; try lia.
    pose proof (digits2_pos_lower p2) as Hl.
    assert (Hlt : 2 ^ (Zpos (digits2_pos p2) - 1) < 2 ^ (15 - e1)).
    { replace (15 - e1) with (15 + - e1) by lia.
      rewrite Z.pow_add_r by lia. fold q. change (2 ^ 15) with 32768. lia. }
    apply Z.pow_lt_mono_r_iff in Hlt; lia. }
  assert (He2r : e1 <= e2 <= 0) by lia.
  set (m3 := m2 / 2 ^ (e2 - e1)).
  assert (Ht : Z.shiftl m3 e2 = m2 / q).
  { rewrite <- (Z.opp_involutive e2) at 1.
    rewrite Z.shiftl_opp_r, Z.shiftr_div_pow2 by lia.
    unfold m3. rewrite Z.div_div by (try apply Z.pow_pos_nonneg; lia).
    rewrite <- Z.pow_add_r by lia.
    unfold q. do 2 f_equal. lia. }
  exists (m2 / q).
  assert (Hm2pos : 0 <= m2) by lia.
  assert (Hm3pos : 0 <= m3) by (apply Z.div_pos; [| apply Z.pow_pos_nonneg]; lia).
  split; [| split].
  - rewrite <- Ht. fold m3. destruct m3 as [| p3 | p3]; cbn [trunc_toward_zero].
    + rewrite Z.shiftl_0_l. destruct sx; reflexivity.
    + replace (e2 <=? emax32 - prec32) with true; [reflexivity |].
      symmetry. apply Z.leb_le. unfold emax32, prec32. lia.
    + lia.
  - split; [apply Z.div_pos; lia |].
    apply Z.div_le_upper_bound; lia.
  - pose proof (Z.div_mod m2 q ltac:(lia)) as Hdq.
    pose proof (Z.mod_pos_bound m2 q ltac:(lia)) as Hmq.
    set (t := m2 / q) in *. set (rq := m2 mod q) in *.
    assert (HM512 : M = Zpos mx * 32767 * 512) by (unfold M; lia).
    split.
    + (* (t + 1) * q > m2 >= m1, and (m1 + 1) * 2 ^ n1 > M *)
      assert (H1 : M < (t + 1) * (2 ^ n1 * q)) by nia.
      rewrite Hn1q in H1. nia.
    + (* t * q <= m2 <= m1 + 1, and m1 * 2 ^ n1 <= M *)
      assert (H1 : t * (2 ^ n1 * q) <= M + 2 ^ n1) by nia.
      rewrite Hn1q in H1.
      assert (H2 : 2 ^ n1 * 512 <= 512 * D) by nia.
      nia.
Qed.

End AdapterFacts.

Section AdapterTheorems.

Lemma in_unit_range_finite (sx : bool) (mx : positive) (ex : Z) :
  in_unit_range (S754_finite sx mx ex) = true ->
  ex <= 0 /\ Zpos mx <= 2 ^ (- ex).
Proof.
  unfold in_unit_range, float32_value. intro H.
  apply Qle_bool_iff in H.
  destruct ex as [| k | k].
  - cbn in H. unfold Qle in H. cbn in H.
    rewrite Z.mul_1_r in H. destruct sx; cbn in *; lia.
  - exfalso. unfold Qle in H. cbn [Qabs inject_Z Qnum Qden] in H.
    rewrite !Z.mul_1_r in H.
    assert (2 <= 2 ^ Zpos k) by (change 2 with (2 ^ 1) at 1; apply Z.pow_le_mono_r; lia).
    destruct sx; cbn [cond_Zopp] in H; rewrite ?Z.abs_mul, ?Z.abs_opp in H;
      cbn [Z.abs] in H; rewrite Z.abs_eq in H by lia; nia.
  - split; [lia |]. unfold Qle in H. cbn [Qabs Qnum Qden] in H.
    rewrite Z.mul_1_r, Z.mul_1_l, Pos2Z.inj_pow in H.
    change (- Zneg k) with (Zpos k).
    destruct sx; cbn in H |- *; lia.
Qed.

(** Every sample of the range is turned into an integer of magnitude at
    most 32767: the float product dropped to an integer, no wrap-around. *)
Lemma sample_to_int16_in_range (s : float32) :
  in_unit_range s = true ->
  trunc_toward_zero (SFmul prec32 emax32 s f32_32767) = Some (sample_to_int16 s)
  /\ -32767 <= sample_to_int16 s <= 32767.
Proof.
  intro Hr. unfold sample_to_int16, astype_int16.
  destruct s as [sx | sx | | sx mx ex]; try discriminate Hr.
  - change f32_32767 with (S754_finite false 16776704 (-9)). cbn. split; [reflexivity | lia].
  - destruct (in_unit_range_finite _ _ _ Hr) as [Hex Hmx].
    destruct (product_truncation sx mx ex Hex Hmx) as (t & Ht & Hb & _).
    rewrite Ht.
    assert (Hz : -32767 <= cond_Zopp sx t <= 32767) by (destruct sx; cbn; lia).
    replace ((- 2 ^ 31 <=? cond_Zopp sx t) && (cond_Zopp sx t <? 2 ^ 31)) with true.
    + rewrite wrap_int16_small by lia. split; [reflexivity | exact Hz].
    + symmetry. apply andb_true_iff. split; [apply Z.leb_le | apply Z.ltb_lt];
        change (2 ^ 31) with 2147483648; lia.
Qed.

(** The integer is less than one away from the exact product. *)
Lemma sample_to_int16_close (s : float32) (v : Q) :
  in_unit_range s = true -> float32_value s = Some v ->
  (Qabs (inject_Z (sample_to_int16 s) - v * 32767) < 1)%Q.
Proof.
  intros Hr Hv.
  destruct (sample_to_int16_in_range s Hr) as [Htr _].
  destruct s as [sx | sx | | sx mx ex]; try discriminate Hr.
  - cbn in Hv. inversion Hv; subst.
    change (sample_to_int16 (S754_zero sx)) with 0. reflexivity.
  - destruct (in_unit_range_finite _ _ _ Hr) as [Hex Hmx].
    destruct (product_truncation sx mx ex Hex Hmx) as (t & Ht & _ & Hlo & Hhi).
    assert (Hz : sample_to_int16 (S754_finite sx mx ex) = cond_Zopp sx t) by congruence.
    rewrite Hz. clear Htr Hz Ht.
    cbn [float32_value] in Hv. inversion Hv; subst v; clear Hv.
    apply Qabs_Qlt_condition.
    destruct ex as [| k | k]; try lia.
    + change (2 ^ (- 0)) with 1 in *.
      unfold Qlt, Qminus, Qplus, Qmult, Qopp, inject_Z; cbn [Qnum Qden].
      destruct sx; cbn [cond_Zopp] in *; lia.
    + change (- Zneg k) with (Zpos k) in *.
      unfold Qlt, Qminus, Qplus, Qmult, Qopp, inject_Z; cbn [Qnum Qden].
      rewrite ?Pos.mul_1_r, ?Pos.mul_1_l, ?Z.mul_1_r, Pos2Z.inj_pow.
      destruct sx; cbn [cond_Zopp] in *; lia.
Qed.

End AdapterTheorems.

Section AdapterArrays.

Lemma float32_to_int16_cons (s : float32) (a : list float32) :
  float32_to_int16 (s :: a) =
  byte_of_Z (sample_to_int16 s) :: byte_of_Z (Z.shiftr (sample_to_int16 s) 8)
    :: float32_to_int16 a.
Proof. reflexivity. Qed.

Lemma float32_to_int16_length (a : list float32) :
  length (float32_to_int16 a) = (2 * length a)%nat.
Proof.
  induction a as [| s a IH]; [reflexivity |].
  rewrite float32_to_int16_cons. cbn [length]. rewrite IH. lia.
Qed.

Lemma read_back_samples (a : list float32) :
  unit_range_array a ->
  read_int16 (float32_to_int16 a) = Some (map sample_to_int16 a).
Proof.
  induction 1 as [| s a Hs Ha IH]; [reflexivity |].
  rewrite float32_to_int16_cons. cbn [read_int16 map]. rewrite IH.
  destruct (sample_to_int16_in_range s Hs) as [_ Hb].
  rewrite int16_bytes_read_back by lia. reflexivity.
Qed.

Lemma scale_step (z v : Q) :
  (Qabs (z - v * 32767) < 1)%Q -> (Qabs (z / 32767 - v) < 1 / 32767)%Q.
Proof.
  intro H. apply Qabs_Qlt_condition in H. apply Qabs_Qlt_condition.
  destruct H as [H1 H2].
  assert (E : (z / 32767 - v == (z - v * 32767) / 32767)%Q) by (field).
  rewrite E. split.
  - apply Qlt_shift_div_l; [reflexivity |]. 
    setoid_replace (- (1 / 32767) * 32767)%Q with (- (1))%Q by (field). exact H1.
  - apply Qlt_shift_div_r; [reflexivity |].
    setoid_replace (1 / 32767 * 32767)%Q with 1%Q by (field). exact H2.
Qed.

End AdapterArrays.

Section DecodingFacts.

Lemma digits2_pos_upper (p : positive) : Zpos p < 2 ^ Zpos (digits2_pos p).
Proof.
  induction p as [p IH | p IH |]; cbn [digits2_pos]; try (cbn; lia).
  - rewrite Pos2Z.inj_succ, Z.pow_succ_r by lia. lia.
  - rewrite Pos2Z.inj_succ, Z.pow_succ_r by lia. lia.
Qed.

(** Every 32-bit pattern decodes to a float32: a NaN, an infinity, a zero or
    a finite number in canonical form. *)
Lemma float32_of_bits_valid (w : Z) : is_float32 (float32_of_bits w) = true.
Proof.
  unfold float32_of_bits, is_float32.
  assert (He : 0 <= Z.land (Z.shiftr w 23) 255 < 256).
  { change 255 with (Z.ones 8). rewrite Z.land_ones by lia.
    apply Z.mod_pos_bound. reflexivity. }
  assert (Hm : 0 <= Z.land w (2 ^ 23 - 1) < 2 ^ 23).
  { change (2 ^ 23 - 1) with (Z.ones 23). rewrite Z.land_ones by lia.
    apply Z.mod_pos_bound. reflexivity. }
  set (e := Z.land (Z.shiftr w 23) 255) in *.
  set (m := Z.land w (2 ^ 23 - 1)) in *.
  destruct (e =? 0) eqn:E0.
  - destruct m as [| p | p]; try reflexivity.
    cbn [valid_binary]. unfold bounded, canonical_mantissa.
    rewrite fexp32.
    pose proof (digits2_pos_lower p) as Hl.
    assert (Hd : Zpos (digits2_pos p) - 1 < 23).
    { apply (Z.pow_lt_mono_r_iff 2); lia. }
    apply andb_true_iff. split; [apply Z.eqb_eq; lia | reflexivity].
  - apply Z.eqb_neq in E0.
    destruct (e =? 255) eqn:E255.
    + destruct (m =? 0); reflexivity.
    + apply Z.eqb_neq in E255.
      destruct (m + 2 ^ 23) as [| p | p] eqn:Ep; try reflexivity.
      cbn [valid_binary]. unfold bounded, canonical_mantissa.
      rewrite fexp32.
      pose proof (digits2_pos_lower p) as Hl.
      pose proof (digits2_pos_upper p) as Hu.
      assert (Hd1 : Zpos (digits2_pos p) - 1 < 24).
      { apply (Z.pow_lt_mono_r_iff 2); lia. }
      assert (Hd2 : 23 < Zpos (digits2_pos p)).
      { apply (Z.pow_lt_mono_r_iff 2); lia. }
      apply andb_true_iff. split; [apply Z.eqb_eq | apply Z.leb_le];
        unfold emax32, prec32; lia.
Qed.

(** The items [np.frombuffer] yields are float32 values. *)
Lemma frombuffer_valid (data : list byte) (a : list float32) :
  frombuffer data = Some a -> Forall (fun s => is_float32 s = true) a.
Proof.
  remember (length data) as n eqn:Hn.
  revert data a Hn. induction n as [n IH] using lt_wf_ind. intros data a Hn.
  destruct data as [| b0 [| b1 [| b2 [| b3 rest]]]]; cbn [frombuffer];
    try discriminate.
  - intro H. inversion H. constructor.
  - destruct (frombuffer rest) as [a' |] eqn:E; [| discriminate].
    intro H. inversion H. subst a. constructor.
    + apply float32_of_bits_valid.
    + apply (IH (length rest)) with (data := rest); [subst n; cbn; lia | reflexivity | exact E].
Qed.

(** Bit patterns of some samples, decoded. *)
Example float32_of_bits_examples :
  float32_of_bits 0x3F800000 = S754_finite false 8388608 (-23)      (* 1.0 *)
  /\ float32_of_bits 0xBF800000 = S754_finite true 8388608 (-23)    (* -1.0 *)
  /\ float32_of_bits 0x3E800000 = S754_finite false 8388608 (-25)   (* 0.25 *)
  /\ float32_of_bits 0x00000001 = S754_finite false 1 (-149)        (* least subnormal *)
  /\ float32_of_bits 0x80000000 = S754_zero true                    (* -0.0 *)
  /\ float32_of_bits 0x7F800000 = S754_infinity false
  /\ float32_of_bits 0x7FC00000 = S754_nan
  /\ f32_32767 = S754_finite false 16776704 (-9).
Proof. repeat split; reflexivity. Qed.

(** The adapter on the ends of the range, just inside them, and on zero. *)
Example float32_to_int16_examples :
  float32_to_int16 [float32_of_bits 0x3F800000] = [xff; x7f]        (* 1.0 -> 32767 *)
  /\ float32_to_int16 [float32_of_bits 0xBF800000] = [x01; x80]     (* -1.0 -> -32767 *)
  /\ float32_to_int16 [float32_of_bits 0x3F7FFFFF] = [xfe; x7f]     (* below 1.0 -> 32766 *)
  /\ float32_to_int16 [float32_of_bits 0xBE800000] = [x01; xe0]     (* -0.25 -> -8191 *)
  /\ float32_to_int16 [float32_of_bits 0x00000000] = [x00; x00]
  /\ float32_to_int16 [] = [].
Proof. repeat split; vm_compute; reflexivity. Qed.

End DecodingFacts.

(** * Facts about [json.loads] *)

Section ScannerFacts.

Context {py : interpreter}.

Lemma skip_ws_length (s : pystr) : (length (skip_ws s) <= length s)%nat.
Proof.
  induction s as [| c r IH]; cbn; [lia |].
  destruct (is_ws c); cbn; lia.
Qed.

Lemma skip_ws_cons_length (s : pystr) (c : N) (r : pystr) :
  skip_ws s = c :: r -> (length r < length s)%nat.
Proof.
  intro H. pose proof (skip_ws_length s) as Hl. rewrite H in Hl. cbn in Hl. lia.
Qed.

Lemma cons_char_Some (c : N) (o : option (pystr * pystr)) (v rest : pystr) :
  cons_char c o = Some (v, rest) ->
  exists v', o = Some (v', rest).
Proof.
  destruct o as [[v' rest'] |]; cbn; [| discriminate].
  intro H. inversion H. subst. eauto.
Qed.

(** The text after a scanned string is shorter than the text scanned. *)
Lemma scanstring_shorter (s v rest : pystr) :
  scanstring s = Some (v, rest) -> (length rest < length s)%nat.
Proof.
  remember (length s) as n eqn:Hn.
  revert s v rest Hn. induction n as [n IH] using lt_wf_ind.
  intros s v rest Hn H.
  assert (Hrec : forall c s' v', (length s' < n)%nat ->
                   cons_char c (scanstring s') = Some (v', rest) ->
                   (length rest < length s')%nat).
  { intros c s' v' Hlt Hc. apply cons_char_Some in Hc. destruct Hc as [v'' Hc].
    exact (IH (length s') Hlt s' v'' rest eq_refl Hc). }
  destruct s as [| c r]; [discriminate |]. cbn [scanstring] in H.
  cbn [length] in Hn.
  repeat (break_match; try discriminate);
    try (inversion H; subst; cbn [length]; lia);
    try (apply Hrec in H; subst; cbn [length] in *; lia).
Qed.

Lemma span_digits_length (s ds rest : pystr) :
  span_digits s = (ds, rest) -> (length ds + length rest = length s)%nat.
Proof.
  revert ds rest. induction s as [| c r IH]; intros ds rest H; cbn in H.
  - inversion H. reflexivity.
  - destruct (is_digit c).
    + destruct (span_digits r) as [ds' rest'] eqn:E. inversion H; subst.
      specialize (IH ds' rest eq_refl). cbn. lia.
    + inversion H; subst. cbn. lia.
Qed.

Lemma span_digits_progress (c : N) (r ds rest : pystr) :
  is_digit c = true -> span_digits (c :: r) = (ds, rest) ->
  (length rest <= length r)%nat.
Proof.
  intros Hd H. cbn in H. rewrite Hd in H.
  destruct (span_digits r) as [ds' rest'] eqn:E. inversion H; subst.
  apply span_digits_length in E. lia.
Qed.

Lemma match_fraction_shorter (s ds rest : pystr) :
  match_fraction s = Some (ds, rest) -> (length rest < length s)%nat.
Proof.
  unfold match_fraction. intro H.
  repeat (break_match; try discriminate); inversion H; subst;
    match goal with E : span_digits _ = _ |- _ =>
      apply span_digits_length in E; cbn [length] in *; lia end.
Qed.

Lemma match_exponent_shorter (s : pystr) (e : Z) (rest : pystr) :
  match_exponent s = Some (e, rest) -> (length rest < length s)%nat.
Proof.
  unfold match_exponent. intro H.
  repeat (break_match; try discriminate); inversion H; subst;
    repeat match goal with E : (_, _) = (_, _) |- _ => inversion E; subst; clear E end;
    match goal with E : span_digits _ = _ |- _ =>
      apply span_digits_length in E; cbn [length] in *; lia end.
Qed.

Lemma match_number_shorter (s : pystr) (v : json) (rest : pystr) :
  match_number py s = Scanned v rest -> (length rest < length s)%nat.
Proof.
  unfold match_number. intro H.
  repeat (break_match; try discriminate); inversion H; subst;
    repeat match goal with
           | E : (_, _) = (_, _) |- _ => inversion E; subst; clear E
           | E : match_fraction _ = Some _ |- _ => apply match_fraction_shorter in E
           | E : match_exponent _ = Some _ |- _ => apply match_exponent_shorter in E
           | D : is_digit ?c = true, E : span_digits (?c :: _) = _ |- _ =>
               apply (span_digits_progress _ _ _ _ D) in E
           end;
    cbn [length] in *; lia.
Qed.

Lemma strip_prefix_length (p s rest : pystr) :
  strip_prefix p s = Some rest -> (length rest + length p = length s)%nat.
Proof.
  revert s. induction p as [| c p IH]; intros s H; cbn in H.
  - inversion H. cbn. lia.
  - destruct s as [| c' s']; [discriminate |].
    destruct (c =? c')%N; [| discriminate].
    apply IH in H. cbn. lia.
Qed.

Lemma scan_atom_shorter (depth : nat) (s : pystr) (v : json) (rest : pystr) :
  scan_atom py depth s = Scanned v rest -> (length rest < length s)%nat.
Proof.
  unfold scan_atom, parse_constant. intro H.
  destruct (strip_prefix (str "null") s) eqn:E1;
    [apply strip_prefix_length in E1; inversion H; subst; cbn in E1; lia |].
  destruct (strip_prefix (str "true") s) eqn:E2;
    [apply strip_prefix_length in E2; inversion H; subst; cbn in E2; lia |].
  destruct (strip_prefix (str "false") s) eqn:E3;
    [apply strip_prefix_length in E3; inversion H; subst; cbn in E3; lia |].
  destruct (strip_prefix (str "NaN") s) eqn:E4;
    [apply strip_prefix_length in E4;
     destruct (constant_levels py <=? depth)%nat; [| discriminate];
     inversion H; subst; cbn in E4; lia |].
  destruct (strip_prefix (str "Infinity") s) eqn:E5;
    [apply strip_prefix_length in E5;
     destruct (constant_levels py <=? depth)%nat; [| discriminate];
     inversion H; subst; cbn in E5; lia |].
  destruct (strip_prefix (str "-Infinity") s) eqn:E6;
    [apply strip_prefix_length in E6;
     destruct (constant_levels py <=? depth)%nat; [| discriminate];
     inversion H; subst; cbn in E6; lia |].
  apply match_number_shorter in H. exact H.
Qed.

End ScannerFacts.

Section FuelFacts.

Context {py : interpreter}.

(** Whatever the fuel and the depth, a scanned value leaves a shorter text
    behind. *)
Lemma scan_shorter (fuel : nat) :
  (forall depth s v rest,
     scan_once py fuel depth s = Scanned v rest -> (length rest < length s)%nat)
  /\ (forall depth s acc v rest,
        parse_pairs py fuel depth s acc = Scanned v rest ->
        (length rest < length s)%nat)
  /\ (forall depth s acc v rest,
        parse_items py fuel depth s acc = Scanned v rest ->
        (length rest < length s)%nat).
Proof.
  induction fuel as [| fuel (IH1 & IH2 & IH3)].
  - repeat split; intros; discriminate.
  - split; [| split].
    + intros depth s v rest H. destruct s as [| c r]; [discriminate |].
      cbn [scan_once parse_pairs parse_items] in H. unfold errmsg in H.
      repeat (break_match; try discriminate);
        repeat match goal with
               | E : parse_pairs _ fuel _ _ _ = Scanned _ _ |- _ => apply IH2 in E
               | E : parse_items _ fuel _ _ _ = Scanned _ _ |- _ => apply IH3 in E
               | E : Scanned _ _ = Scanned _ _ |- _ => inversion E; subst; clear E
               end;
        note_skip_ws skip_ws_length;
        shorter_facts scanstring_shorter skip_ws_cons_length (@scan_atom_shorter py);
        cbn [length] in *; lia.
    + intros depth s acc v rest H.
      destruct s as [| c r];
        [cbn [parse_pairs] in H; unfold errmsg in H;
         destruct (error_levels py <=? depth)%nat; discriminate |].
      cbn [scan_once parse_pairs parse_items] in H. unfold errmsg in H.
      repeat (break_match; try discriminate);
        repeat match goal with
               | E : scan_once _ fuel _ _ = Scanned _ _ |- _ => apply IH1 in E
               | E : parse_pairs _ fuel _ _ _ = Scanned _ _ |- _ => apply IH2 in E
               | E : Scanned _ _ = Scanned _ _ |- _ => inversion E; subst; clear E
               end;
        note_skip_ws skip_ws_length;
        shorter_facts scanstring_shorter skip_ws_cons_length (@scan_atom_shorter py);
        cbn [length] in *; lia.
    + intros depth s acc v rest H. cbn [scan_once parse_pairs parse_items] in H.
      unfold errmsg in H.
      repeat (break_match; try discriminate);
        repeat match goal with
               | E : scan_once _ fuel _ _ = Scanned _ _ |- _ => apply IH1 in E
               | E : parse_items _ fuel _ _ _ = Scanned _ _ |- _ => apply IH3 in E
               | E : Scanned _ _ = Scanned _ _ |- _ => inversion E; subst; clear E
               end;
        note_skip_ws skip_ws_length;
        shorter_facts scanstring_shorter skip_ws_cons_length (@scan_atom_shorter py);
        cbn [length] in *; lia.
Qed.

(** An atom is scanned without recursion: the bound of the model is not an
    outcome of it. *)
Lemma scan_atom_fuel (depth : nat) (s : pystr) :
  scan_atom py depth s <> OutOfFuel.
Proof.
  unfold scan_atom, parse_constant, match_number.
  repeat (break_match; try discriminate).
Qed.

(** Fuel beyond twice the length of the text is never used up. *)
Lemma scan_fuel_suffices (fuel : nat) :
  (forall depth s,
     (2 * length s + 1 <= fuel)%nat -> scan_once py fuel depth s <> OutOfFuel)
  /\ (forall depth s acc,
        (2 * length s + 1 <= fuel)%nat ->
        parse_pairs py fuel depth s acc <> OutOfFuel)
  /\ (forall depth s acc,
        (2 * length s + 2 <= fuel)%nat ->
        parse_items py fuel depth s acc <> OutOfFuel).
Proof.
  induction fuel as [| fuel (IH1 & IH2 & IH3)].
  - repeat split; intros; lia.
  - split; [| split].
    + intros depth s Hf. destruct s as [| c r]; [discriminate |].
      cbn [scan_once parse_pairs parse_items]. unfold errmsg.
      cbn [length] in Hf.
      repeat (break_match; try discriminate);
        try apply scan_atom_fuel;
        note_skip_ws skip_ws_length;
        shorter_facts scanstring_shorter skip_ws_cons_length (@scan_atom_shorter py);
        cbn [length] in *;
        first [ apply IH2; cbn [length]; lia | apply IH3; cbn [length]; lia ].
    + intros depth s acc Hf.
      destruct s as [| c r];
        [cbn [parse_pairs]; unfold errmsg;
         destruct (error_levels py <=? depth)%nat; discriminate |].
      cbn [scan_once parse_pairs parse_items]. unfold errmsg.
      cbn [length] in Hf.
      repeat (break_match; try discriminate);
        scanned_facts fuel scan_shorter; note_skip_ws skip_ws_length;
        shorter_facts scanstring_shorter skip_ws_cons_length (@scan_atom_shorter py);
        cbn [length] in *;
        first [ apply IH2; cbn [length]; lia
              | match goal with
                | E : scan_once _ fuel ?d ?x = OutOfFuel |- _ =>
                    exfalso; apply (IH1 d x); [lia | exact E]
                end ].
    + intros depth s acc Hf. cbn [scan_once parse_pairs parse_items]. unfold errmsg.
      repeat (break_match; try discriminate);
        scanned_facts fuel scan_shorter; note_skip_ws skip_ws_length;
        shorter_facts scanstring_shorter skip_ws_cons_length (@scan_atom_shorter py);
        cbn [length] in *;
        first [ apply IH3; cbn [length]; lia
              | match goal with
                | E : scan_once _ fuel ?d ?x = OutOfFuel |- _ =>
                    exfalso; apply (IH1 d x); [lia | exact E]
                end ].
Qed.

(** [json_loads] never reaches the recursion bound of the model: its answer
    is the decoder's. *)
Lemma json_loads_within_fuel (message : pystr) :
  scan_once py (2 * length (skip_ws message) + 2) (recursion_budget py)
    (skip_ws message) <> OutOfFuel.
Proof. apply scan_fuel_suffices. lia. Qed.

End FuelFacts.

Section DecoderExamples.

(** The decoder on well-formed texts: a repeated key, nesting, escapes (a
    surrogate pair among them), integers and floats, the constants. *)
Example json_loads_values :
  json_loads cpython (json_text "{'EOS': true}") = Value (JDict [(str "EOS", JBool true)])
  /\ json_loads cpython (json_text " { 'EOS' : false , 'EOS' : true } ")
     = Value (JDict [(str "EOS", JBool false); (str "EOS", JBool true)])
  /\ json_loads cpython (json_text "[1, -0, 2.50, 1e3, 12E-2, [], {}, null]")
     = Value (JList [JInt 1; JInt 0; JFloat (FDec false 250 (-2));
                     JFloat (FDec false 1 3); JFloat (FDec false 12 (-2));
                     JList []; JDict []; JNull])
  /\ json_loads cpython (json_text "'a\nA\/\ud83d\ude00'")
     = Value (JStr [97; 10; 65; 47; 128512]%N)
  /\ json_loads cpython (json_text "'\ud83dx'") = Value (JStr [55357; 120]%N)
  /\ json_loads cpython (json_text "[NaN, Infinity, -Infinity]")
     = Value (JList [JFloat FNaN; JFloat (FInf false); JFloat (FInf true)])
  /\ json_loads cpython (json_text "{'EOS': 1}") = Value (JDict [(str "EOS", JInt 1)]).
Proof. repeat split; vm_compute; reflexivity. Qed.

(** Texts the decoder refuses. *)
Example json_loads_errors :
  json_loads cpython (str "") = JSONDecodeError
  /\ json_loads cpython (str "hello") = JSONDecodeError
  /\ json_loads cpython (json_text "{'EOS': true") = JSONDecodeError
  /\ json_loads cpython (json_text "{'EOS': true,}") = JSONDecodeError
  /\ json_loads cpython (json_text "{EOS: true}") = JSONDecodeError
  /\ json_loads cpython (json_text "[1,]") = JSONDecodeError
  /\ json_loads cpython (json_text "01") = JSONDecodeError
  /\ json_loads cpython (json_text "1.") = JSONDecodeError
  /\ json_loads cpython (json_text "-") = JSONDecodeError
  /\ json_loads cpython (json_text "1e") = JSONDecodeError
  /\ json_loads cpython (json_text "'\x'") = JSONDecodeError
  /\ json_loads cpython (json_text "'\u12g4'") = JSONDecodeError
  /\ json_loads cpython (json_text "'open") = JSONDecodeError
  /\ json_loads cpython (json_text "{} {}") = JSONDecodeError
  /\ json_loads cpython (json_text "True") = JSONDecodeError.
Proof. repeat split; vm_compute; reflexivity. Qed.

(** Truth values as [if data.get(...)] sees them. *)
Example truthy_examples :
  truthy (dict_get (str "EOS") [(str "EOS", JBool false); (str "EOS", JBool true)]) = true
  /\ truthy (dict_get (str "EOS") [(str "EOS", JBool true); (str "EOS", JBool false)]) = false
  /\ truthy (dict_get (str "EOS") [(str "eos", JBool true)]) = false
  /\ truthy (JInt 0) = false /\ truthy (JInt (-1)) = true
  /\ truthy (JFloat (FDec true 0 0)) = false
  /\ truthy (JFloat (FDec false 5 (-324))) = true
  /\ truthy (JFloat (FDec false 2 (-324))) = false
  /\ truthy (JFloat FNaN) = true
  /\ truthy (JStr []) = false /\ truthy (JStr (str "false")) = true
  /\ truthy (JList []) = false /\ truthy (JList [JNull]) = true
  /\ truthy (JDict []) = false /\ truthy JNull = false.
Proof. repeat split; vm_compute; reflexivity. Qed.

End DecoderExamples.

(** * Facts about the session *)

Section QueueFacts.

Context {py : interpreter}.

Lemma run_app (evs1 evs2 : list event) (st : session) :
  run py (evs1 ++ evs2) st = run py evs2 (run py evs1 st).
Proof. unfold run. apply fold_left_app. Qed.

Lemma run_snoc (evs : list event) (ev : event) (st : session) :
  run py (evs ++ [ev]) st = step py ev (run py evs st).
Proof. rewrite run_app. reflexivity. Qed.

Lemma pushed_app (u : pystr) (evs1 evs2 : list event) :
  pushed u (evs1 ++ evs2) = pushed u evs1 ++ pushed u evs2.
Proof.
  induction evs1 as [| ev evs1 IH]; [reflexivity |].
  destruct ev; cbn [pushed app]; try exact IH;
    destruct (str_truthy (strip text)); cbn [app]; rewrite ?IH; reflexivity.
Qed.

Lemma finally_block_fields (st : session) :
  uid (finally_block st) = uid st
  /\ scheduled (finally_block st) = scheduled st
  /\ message_queue (finally_block st) = message_queue st
  /\ transport (finally_block st) = transport st
  /\ calls (finally_block st) = calls st ++ teardown_calls
  /\ sender (finally_block st) <> Running
  /\ (sender st <> Running -> sender (finally_block st) = sender st).
Proof.
  unfold finally_block, teardown_calls; cbn.
  rewrite <- !app_assoc. cbn.
  repeat split; destruct (sender st); congruence.
Qed.

Lemma receive_body_fields (message : frame) (st : session) :
  match receive_body py message st with
  | Continue st' | Raise _ st' =>
      uid st' = uid st /\ scheduled st' = scheduled st
      /\ message_queue st' = message_queue st
      /\ transport st' = transport st /\ sender st' = sender st
      /\ receive st' = receive st
  end.
Proof.
  unfold receive_body.
  destruct message as [data | data].
  - destruct (frombuffer data); cbn; auto 10.
  - destruct (json_loads py data) as [[| b | z | f | s | l | pairs] | | e]; cbn; auto 10.
    destruct (truthy _); cbn; auto 10.
Qed.

Lemma step_uid (ev : event) (st : session) : uid (step py ev st) = uid st.
Proof.
  destruct ev as [message | k | text id | text id | | open]; cbn [step].
  - destruct (receive st); [| reflexivity].
    pose proof (receive_body_fields message st) as H.
    destruct (receive_body py message st) as [st' | e st']; [tauto |].
    unfold set_receive; cbn [uid scheduled message_queue transport sender calls receive log]. destruct (finally_block_fields st') as [Hu _]. rewrite Hu. tauto.
  - destruct (receive st); [| reflexivity]. unfold set_receive; cbn [uid scheduled message_queue transport sender calls receive log].
    destruct (finally_block_fields
                (match k with ClosedOK => st | ClosedError => add_log InfoConnectionClosed st end))
      as [Hu _].
    rewrite Hu. destruct k; reflexivity.
  - unfold on_realtime_update. destruct (str_truthy _); reflexivity.
  - unfold on_final_text_callback. destruct (str_truthy _); reflexivity.
  - unfold run_scheduled. destruct (scheduled st); reflexivity.
  - unfold sender_task_step.
    destruct (sender st), (message_queue st), open; reflexivity.
Qed.

Lemma run_uid (evs : list event) (st : session) : uid (run py evs st) = uid st.
Proof.
  revert st; induction evs as [| ev evs IH]; intro st; [reflexivity |].
  cbn. change (fold_left _ evs (step py ev st)) with (run py evs (step py ev st)).
  rewrite IH. apply step_uid.
Qed.

Lemma step_in_flight (ev : event) (st : session) (lost : list response) :
  (sender st = Running -> lost = []) ->
  exists lost',
    in_flight (step py ev st) lost' = in_flight st lost ++ pushed (uid st) [ev]
    /\ (sender (step py ev st) = Running -> lost' = []).
Proof.
  intro Hl. unfold in_flight.
  destruct ev as [message | k | text id | text id | | open]; cbn [step pushed].
  - exists lost. rewrite app_nil_r.
    destruct (receive st); [| auto].
    pose proof (receive_body_fields message st) as H.
    destruct (receive_body py message st) as [st' | e st'];
      destruct H as (_ & Hs & Hq & Ht & Hsd & _).
    + rewrite Hs, Hq, Ht, Hsd. auto.
    + unfold set_receive; cbn [uid scheduled message_queue transport sender calls receive log].
      destruct (finally_block_fields st') as (_ & Hs' & Hq' & Ht' & _ & Hn & _).
      rewrite Hs', Hq', Ht', Hs, Hq, Ht. split; [reflexivity | intro; contradiction].
  - exists lost. rewrite app_nil_r.
    destruct (receive st); [| auto]. unfold set_receive; cbn [uid scheduled message_queue transport sender calls receive log].
    match goal with |- context [finally_block ?s] =>
      destruct (finally_block_fields s) as (_ & Hs' & Hq' & Ht' & _ & Hn & _);
      rewrite Hs', Hq', Ht' end.
    split; [destruct k; reflexivity | intro; contradiction].
  - exists lost. unfold on_realtime_update.
    destruct (str_truthy (strip text)); cbn.
    + rewrite <- !app_assoc. auto.
    + rewrite app_nil_r. auto.
  - exists lost. unfold on_final_text_callback.
    destruct (str_truthy (strip text)); cbn.
    + rewrite <- !app_assoc. auto.
    + rewrite app_nil_r. auto.
  - exists lost. rewrite app_nil_r. unfold run_scheduled.
    destruct (scheduled st) as [| m rest] eqn:Es; cbn.
    + rewrite Es. auto.
    + rewrite <- !app_assoc. auto.
  - rewrite app_nil_r. unfold sender_task_step.
    destruct (sender st) eqn:Es; try (exists lost; rewrite Es; auto; fail).
    destruct (message_queue st) as [| m rest] eqn:Eq;
      [exists lost; rewrite Es, Eq; auto |].
    rewrite (Hl eq_refl). destruct open; cbn.
    + exists []. rewrite <- !app_assoc. auto.
    + exists [m]. split; [reflexivity | discriminate].
Qed.

Lemma run_in_flight (u : pystr) (evs : list event) :
  exists lost,
    in_flight (run py evs (new_session u)) lost = pushed u evs
    /\ (sender (run py evs (new_session u)) = Running -> lost = []).
Proof.
  induction evs as [| ev evs IH] using rev_ind.
  - exists []. split; reflexivity.
  - destruct IH as (lost & Hf & Hl).
    destruct (step_in_flight ev (run py evs (new_session u)) lost Hl) as (lost' & Hf' & Hl').
    exists lost'. rewrite run_snoc, pushed_app, Hf', Hf, run_uid. auto.
Qed.

End QueueFacts.

Section ReceiveLoopFacts.

Context {py : interpreter}.

Lemma no_teardown_app (cs1 cs2 : list call) :
  no_teardown (cs1 ++ cs2) = no_teardown cs1 && no_teardown cs2.
Proof. apply forallb_app. Qed.

(** The loop body either goes on, having made no call of the [finally]
    block, or raises with the session untouched. *)
Lemma receive_body_calls (message : frame) (st : session) :
  match receive_body py message st with
  | Continue st' =>
      raises py message = false
      /\ exists cs, calls st' = calls st ++ cs /\ no_teardown cs = true
  | Raise _ st' => raises py message = true /\ st' = st
  end.
Proof.
  unfold receive_body, raises.
  destruct message as [data | data].
  - destruct (frombuffer data) as [a |]; [| auto].
    split; [reflexivity |]. eexists. split; reflexivity.
  - destruct (json_loads py data) as [[| b | z | f | s | l | pairs] | | e]; auto.
    + destruct (truthy _); split; try reflexivity.
      * exists [Stop]. split; reflexivity.
      * exists []. rewrite app_nil_r. split; reflexivity.
    + split; [reflexivity |]. exists []. rewrite app_nil_r. split; reflexivity.
Qed.

Lemma callbacks_keep_handler (ev : event) (st : session) :
  match ev with Recv _ | RecvClosed _ => False | _ => True end ->
  receive (step py ev st) = receive st /\ calls (step py ev st) = calls st
  /\ (sender st <> Running -> sender (step py ev st) <> Running)
  /\ (sender st <> Cancelled -> sender (step py ev st) <> Cancelled).
Proof.
  destruct ev as [message | k | text id | text id | | open]; cbn [step];
    try contradiction; intros _.
  - unfold on_realtime_update. destruct (str_truthy _); cbn; auto.
  - unfold on_final_text_callback. destruct (str_truthy _); cbn; auto.
  - unfold run_scheduled. destruct (scheduled st); cbn; auto.
  - unfold sender_task_step.
    destruct (sender st) eqn:Es; try (rewrite Es; auto; fail).
    destruct (message_queue st); [rewrite Es; auto |].
    destruct open; cbn; repeat split; auto; discriminate.
Qed.

Lemma step_teardown_state (ev : event) (st : session) :
  teardown_state st ->
  teardown_state (step py ev st)
  /\ (receive st = Receiving ->
      receive (step py ev st) = Receiving <-> leaves_loop py ev = false)
  /\ (receive st <> Receiving ->
      receive (step py ev st) = receive st /\ calls (step py ev st) = calls st).
Proof.
  intro Hinv. unfold teardown_state in *.
  destruct ev as [message | k | text id | text id | | open].
  - cbn [step leaves_loop].
    destruct (receive st) eqn:Er.
    + pose proof (receive_body_calls message st) as Hb.
      pose proof (receive_body_fields (py:=py) message st) as Hf.
      destruct (receive_body py message st) as [st' | e st'].
      * destruct Hb as (Hr & cs & Hc & Hn). destruct Hf as (_ & _ & _ & _ & Hsd & Hrc).
        destruct Hinv as [Hnt Hsc].
        rewrite Hrc, Er, Hc, no_teardown_app, Hnt, Hn, Hsd.
        repeat split; auto; congruence.
      * destruct Hb as [Hr ->].
        unfold set_receive;
          cbn [uid scheduled message_queue transport sender calls receive log].
        destruct (finally_block_fields st) as (_ & _ & _ & _ & Hc & Hs & _).
        repeat split; try congruence.
        exists (calls st). split; [exact Hc | apply Hinv].
    + rewrite Er. split; [exact Hinv |]. split; [intro; discriminate | auto].
  - cbn [step leaves_loop].
    destruct (receive st) eqn:Er.
    + unfold set_receive;
        cbn [uid scheduled message_queue transport sender calls receive log].
      match goal with |- context [finally_block ?s] =>
        destruct (finally_block_fields s) as (_ & _ & _ & _ & Hc & Hs & _) end.
      repeat split; try congruence.
      exists (calls st). split; [| apply Hinv].
      rewrite Hc. destruct k; reflexivity.
    + rewrite Er. split; [exact Hinv |]. split; [intro; discriminate | auto].
  - destruct (callbacks_keep_handler (RealtimeUpdate text id) st I) as (Hr & Hc & Hs & Hs').
    rewrite Hr, Hc. cbn [leaves_loop].
    destruct (receive st); repeat split; auto; try congruence; tauto.
  - destruct (callbacks_keep_handler (FinalText text id) st I) as (Hr & Hc & Hs & Hs').
    rewrite Hr, Hc. cbn [leaves_loop].
    destruct (receive st); repeat split; auto; try congruence; tauto.
  - destruct (callbacks_keep_handler RunScheduled st I) as (Hr & Hc & Hs & Hs').
    rewrite Hr, Hc. cbn [leaves_loop].
    destruct (receive st); repeat split; auto; try congruence; tauto.
  - destruct (callbacks_keep_handler (SenderStep open) st I) as (Hr & Hc & Hs & Hs').
    rewrite Hr, Hc. cbn [leaves_loop].
    destruct (receive st); repeat split; auto; try congruence; tauto.
Qed.

Lemma run_teardown_state (evs : list event) (st : session) :
  teardown_state st -> receive st = Receiving ->
  teardown_state (run py evs st)
  /\ (receive (run py evs st) = Receiving <-> existsb (leaves_loop py) evs = false).
Proof.
  intros Hinv Hr.
  induction evs as [| ev evs IH] using rev_ind.
  - cbn. split; [exact Hinv | tauto].
  - rewrite run_snoc, existsb_app. cbn [existsb]. rewrite orb_false_r.
    destruct IH as [Hi Hiff].
    destruct (step_teardown_state ev (run py evs st) Hi) as (Hi' & Hrecv & Hexit).
    split; [exact Hi' |].
    destruct (receive (run py evs st)) eqn:Er.
    + rewrite (Hrecv eq_refl). destruct Hiff as [H1 _]. rewrite (H1 eq_refl).
      reflexivity.
    + destruct Hexit as [Hre _]; [discriminate |]. rewrite Hre.
      split; [discriminate |].
      intro Hb. apply orb_false_iff in Hb. destruct Hb as [Hb _].
      apply Hiff in Hb. discriminate.
Qed.

End ReceiveLoopFacts.

Section FrameFacts.

(** [np.frombuffer] fails exactly on a buffer that is no whole number of
    four-byte items. *)
Lemma frombuffer_None_iff (data : list byte) :
  frombuffer data = None <-> (length data mod 4 <> 0)%nat.
Proof.
  remember (length data) as n eqn:Hn.
  revert data Hn. induction n as [n IH] using lt_wf_ind. intros data Hn.
  destruct data as [| b0 [| b1 [| b2 [| b3 rest]]]]; cbn [frombuffer].
  - subst n. cbn. split; [discriminate | intro H; contradiction H; reflexivity].
  - subst n. cbn. split; [discriminate | reflexivity].
  - subst n. cbn. split; [discriminate | reflexivity].
  - subst n. cbn. split; [discriminate | reflexivity].
  - assert (Hlen : n = (length rest + 1 * 4)%nat) by (subst n; cbn; lia).
    rewrite Hlen, Nat.Div0.mod_add.
    rewrite <- (IH (length rest)) with (data := rest) by lia.
    destruct (frombuffer rest); split; congruence.
Qed.

Lemma frombuffer_length (data : list byte) (a : list float32) :
  frombuffer data = Some a -> length data = (4 * length a)%nat.
Proof.
  remember (length data) as n eqn:Hn.
  revert data a Hn. induction n as [n IH] using lt_wf_ind. intros data a Hn.
  destruct data as [| b0 [| b1 [| b2 [| b3 rest]]]]; cbn [frombuffer];
    try discriminate.
  - intro H. inversion H. subst. reflexivity.
  - destruct (frombuffer rest) as [a' |] eqn:E; [| discriminate].
    intro H. inversion H. subst a. cbn [length] in *.
    specialize (IH (length rest) ltac:(lia) rest a' eq_refl E). lia.
Qed.

End FrameFacts.

Section StripFacts.

Lemma lstrip_nil_iff (s : pystr) : lstrip s = [] <-> forallb isspace s = true.
Proof.
  induction s as [| c r IH]; cbn; [tauto |].
  destruct (isspace c); cbn; [exact IH |]. split; discriminate.
Qed.

Lemma lstrip_head (s : pystr) (c : N) (r : pystr) :
  lstrip s = c :: r -> isspace c = false.
Proof.
  induction s as [| c' r' IH]; cbn; [discriminate |].
  destruct (isspace c') eqn:E; [exact IH |].
  intro H. inversion H. subst. exact E.
Qed.

Lemma forallb_rev {A : Type} (f : A -> bool) (l : list A) :
  forallb f (rev l) = forallb f l.
Proof.
  induction l as [| x l IH]; [reflexivity |].
  cbn. rewrite forallb_app, IH. cbn. rewrite andb_true_r. apply andb_comm.
Qed.

Lemma strip_nil_iff (s : pystr) : strip s = [] <-> forallb isspace s = true.
Proof.
  unfold strip. split.
  - intro H. apply (f_equal (@rev N)) in H. rewrite rev_involutive in H. cbn in H.
    apply lstrip_nil_iff in H. rewrite forallb_rev in H.
    apply lstrip_nil_iff.
    destruct (lstrip s) as [| c r] eqn:E; [reflexivity |].
    apply lstrip_head in E. cbn in H. rewrite E in H. discriminate.
  - intro H. apply lstrip_nil_iff in H. rewrite H. reflexivity.
Qed.

Lemma has_visible_char_forallb (s : pystr) :
  has_visible_char s = negb (forallb isspace s).
Proof.
  unfold has_visible_char. induction s as [| c r IH]; [reflexivity |].
  cbn. rewrite IH. destruct (isspace c); reflexivity.
Qed.

(** [if text.strip():] holds exactly for a text with a character that is no
    whitespace. *)
Lemma strip_truthy (text : pystr) :
  str_truthy (strip text) = has_visible_char text.
Proof.
  rewrite has_visible_char_forallb.
  destruct (forallb isspace text) eqn:E.
  - apply strip_nil_iff in E. rewrite E. reflexivity.
  - destruct (strip text) as [| c r] eqn:Es; [| reflexivity].
    apply strip_nil_iff in Es. congruence.
Qed.

End StripFacts.

Section ResponseFacts.

Context {py : interpreter}.

Lemma pushed_Forall (P : response -> Prop) (u : pystr) (evs : list event) :
  (forall text id, has_visible_char text = true ->
     P (make_response u (str "inprogress") text false id)
     /\ P (make_response u (str "transcribed") text true id)) ->
  Forall P (pushed u evs).
Proof.
  intro HP. induction evs as [| ev evs IH]; [constructor |].
  destruct ev; cbn [pushed]; try exact IH;
    rewrite strip_truthy; destruct (has_visible_char text) eqn:E; try exact IH;
    constructor; try exact IH; apply HP; exact E.
Qed.

Lemma session_Forall (P : response -> Prop) (u : pystr) (evs : list event) :
  (forall text id, has_visible_char text = true ->
     P (make_response u (str "inprogress") text false id)
     /\ P (make_response u (str "transcribed") text true id)) ->
  Forall P (transport (run py evs (new_session u))
            ++ message_queue (run py evs (new_session u))
            ++ scheduled (run py evs (new_session u))).
Proof.
  intro HP. pose proof (pushed_Forall P u evs HP) as H.
  destruct (run_in_flight (py:=py) u evs) as (lost & Hf & _).
  rewrite <- Hf in H. unfold in_flight in H.
  apply Forall_app in H. destruct H as [Ht H].
  apply Forall_app in H. destruct H as [_ H].
  apply Forall_app. split; assumption.
Qed.

Lemma make_response_callback (u text id : pystr) :
  callback_response u (make_response u (str "inprogress") text false id)
  /\ callback_response u (make_response u (str "transcribed") text true id).
Proof.
  unfold callback_response, make_response; cbn [resp_uid resp_segments resp_status].
  split; (split; [reflexivity |]); eexists; (split; [reflexivity |]);
    cbn [seg_completed seg_type]; repeat split; intros; try reflexivity;
    try discriminate.
Qed.

End ResponseFacts.

Section TeardownFacts.

Context {py : interpreter}.

Lemma new_session_teardown_state (u : pystr) : teardown_state (new_session u).
Proof. split; [reflexivity | discriminate]. Qed.

(** An event that leaves the loop runs the [finally] block: its three calls
    are appended, the sender task no longer runs, the pipeline is as it was. *)
Lemma leaving_step (ev : event) (st : session) :
  receive st = Receiving -> leaves_loop py ev = true ->
  (exists raised, receive (step py ev st) = Exited raised)
  /\ calls (step py ev st) = calls st ++ teardown_calls
  /\ sender (step py ev st) <> Running
  /\ transport (step py ev st) = transport st
  /\ message_queue (step py ev st) = message_queue st
  /\ scheduled (step py ev st) = scheduled st.
Proof.
  intros Hr Hl.
  destruct ev as [message | k | text id | text id | | open];
    try discriminate Hl; cbn [step leaves_loop] in *; rewrite Hr.
  - pose proof (receive_body_calls (py:=py) message st) as Hb.
    destruct (receive_body py message st) as [st' | e st'].
    + destruct Hb as [Hb _]. congruence.
    + destruct Hb as [_ ->].
      unfold set_receive;
        cbn [uid scheduled message_queue transport sender calls receive log].
      destruct (finally_block_fields st) as (_ & Hs & Hq & Ht & Hc & Hn & _).
      repeat split; eauto.
  - unfold set_receive;
      cbn [uid scheduled message_queue transport sender calls receive log].
    match goal with |- context [finally_block ?s] =>
      destruct (finally_block_fields s) as (_ & Hs & Hq & Ht & Hc & Hn & _) end.
    rewrite Hs, Hq, Ht, Hc.
    repeat split; eauto; destruct k; reflexivity.
Qed.




(** Once the handler has left, no event changes what it has called. *)
Lemma exited_calls_frozen (evs : list event) (st : session) :
  receive st <> Receiving ->
  receive (run py evs st) = receive st /\ calls (run py evs st) = calls st.
Proof.
  intro Hr. induction evs as [| ev evs IH] using rev_ind; [auto |].
  rewrite run_snoc. destruct IH as [IHr IHc].
  destruct ev as [message | k | text id | text id | | open].
  - cbn [step]. destruct (receive (run py evs st)) eqn:E; [congruence |].
    split; congruence.
  - cbn [step]. destruct (receive (run py evs st)) eqn:E; [congruence |].
    split; congruence.
  - destruct (callbacks_keep_handler (py:=py) (RealtimeUpdate text id) (run py evs st) I)
      as (H1 & H2 & _). split; congruence.
  - destruct (callbacks_keep_handler (py:=py) (FinalText text id) (run py evs st) I)
      as (H1 & H2 & _). split; congruence.
  - destruct (callbacks_keep_handler (py:=py) RunScheduled (run py evs st) I)
      as (H1 & H2 & _). split; congruence.
  - destruct (callbacks_keep_handler (py:=py) (SenderStep open) (run py evs st) I)
      as (H1 & H2 & _). split; congruence.
Qed.

End TeardownFacts.

Section DrainFacts.

Context {py : interpreter}.

Lemma run_cons (ev : event) (evs : list event) (st : session) :
  run py (ev :: evs) st = run py evs (step py ev st).
Proof. reflexivity. Qed.

(** With every scheduled [put_nowait] run, the queue holds what was
    scheduled behind what it held. *)
Lemma run_all_scheduled (st : session) :
  scheduled (run py (repeat RunScheduled (length (scheduled st))) st) = []
  /\ message_queue (run py (repeat RunScheduled (length (scheduled st))) st)
     = message_queue st ++ scheduled st
  /\ transport (run py (repeat RunScheduled (length (scheduled st))) st)
     = transport st
  /\ sender (run py (repeat RunScheduled (length (scheduled st))) st) = sender st.
Proof.
  remember (length (scheduled st)) as n eqn:Hn.
  revert st Hn. induction n as [| n IH]; intros st Hn.
  - destruct (scheduled st) eqn:E; [| discriminate]. cbn.
    rewrite E, app_nil_r. auto.
  - destruct (scheduled st) as [| m rest] eqn:E; [discriminate |].
    cbn [repeat]. rewrite run_cons. cbn [step]. unfold run_scheduled. rewrite E.
    match goal with |- context [run py _ ?s] => set (st1 := s) end.
    specialize (IH st1 ltac:(cbn in *; lia)).
    destruct IH as (H1 & H2 & H3 & H4).
    rewrite H1, H2, H3, H4. cbn. rewrite <- app_assoc. auto.
Qed.

(** A running sender task with an open transport writes the whole queue,
    oldest first. *)
Lemma run_sender_drains (st : session) :
  sender st = Running ->
  message_queue (run py (repeat (SenderStep true) (length (message_queue st))) st) = []
  /\ transport (run py (repeat (SenderStep true) (length (message_queue st))) st)
     = transport st ++ message_queue st
  /\ scheduled (run py (repeat (SenderStep true) (length (message_queue st))) st)
     = scheduled st
  /\ sender (run py (repeat (SenderStep true) (length (message_queue st))) st)
     = Running.
Proof.
  remember (length (message_queue st)) as n eqn:Hn.
  revert st Hn. induction n as [| n IH]; intros st Hn Hs.
  - destruct (message_queue st) eqn:E; [| discriminate]. cbn.
    rewrite E, app_nil_r. auto.
  - destruct (message_queue st) as [| m rest] eqn:E; [discriminate |].
    cbn [repeat]. rewrite run_cons. cbn [step]. unfold sender_task_step.
    rewrite Hs, E.
    match goal with |- context [run py _ ?s] => set (st1 := s) end.
    specialize (IH st1 ltac:(cbn in *; lia) eq_refl).
    destruct IH as (H1 & H2 & H3 & H4).
    rewrite H1, H2, H3, H4. cbn. rewrite <- app_assoc. auto.
Qed.

End DrainFacts.

Section TextFrameFacts.

Context {py : interpreter}.

(** A text frame that decodes to anything but an object is not survived:
    [data.get] raises [AttributeError], the [finally] block runs and the
    handler is gone. *)
Lemma non_object_json_is_fatal (st : session) (t : pystr) (v : json) :
  receive st = Receiving ->
  json_loads py t = Value v ->
  (forall pairs, v <> JDict pairs) ->
  receive (step py (Recv (Text t)) st) = Exited (Some AttributeError)
  /\ calls (step py (Recv (Text t)) st) = calls st ++ teardown_calls
  /\ log (step py (Recv (Text t)) st) = log st ++ [InfoCleaningUp]
  /\ sender (step py (Recv (Text t)) st) <> Running.
Proof.
  intros Hr Hj Hv. cbn [step]. rewrite Hr. unfold receive_body. rewrite Hj.
  destruct v as [| b | z | f | s | l | pairs];
    try (unfold set_receive;
         cbn [uid scheduled message_queue transport sender calls receive log];
         destruct (finally_block_fields st) as (_ & _ & _ & _ & Hc & Hs & _);
         repeat split; auto; fail).
  exfalso. apply (Hv pairs). reflexivity.
Qed.

End TextFrameFacts.

(** * The claims *)

(** C1, as the specification words it, fails: the sample 0.25 (the four bytes
    00 00 80 3e) lies in [-1.0, 1.0], its product with 32767 is 8191.75, and
    the adapter writes ff 1f, the integer 8191 and not the nearest integer
    8192: the fraction is dropped, not rounded. *)
Lemma adapter_drops_fraction_of_quarter :
  frombuffer [x00; x00; x80; x3e] = Some [float32_of_bits 0x3E800000]
  /\ float32_value (float32_of_bits 0x3E800000) = Some (8388608 # 33554432)
  /\ in_unit_range (float32_of_bits 0x3E800000) = true
  /\ float32_to_int16 [float32_of_bits 0x3E800000] = [xff; x1f]
  /\ int16_of_bytes xff x1f = 8191
  /\ nearest_integer ((8388608 # 33554432) * 32767) 8191 = false
  /\ nearest_integer ((8388608 # 33554432) * 32767) 8192 = true.
Proof. repeat split; vm_compute; reflexivity. Qed.

(** C1 (amended): for every array of float32 samples in [-1.0, 1.0]
    the adapter maps each sample [s] to the integer obtained by dropping the
    fraction of the float32 product [s * 32767] (truncation toward zero, no
    rounding to nearest); that integer lies in [-32767, 32767], so no
    wrap-around takes place, and the output is these integers as 16-bit
    two's complement, low byte first, which read back as the same integers.
    The adapter is a total function: it raises on no input. *)
Theorem float32_to_int16_truncates (a : list float32) :
  unit_range_array a ->
  exists ints,
    Forall2 (fun s z =>
               trunc_toward_zero (SFmul prec32 emax32 s f32_32767) = Some z
               /\ -32767 <= z <= 32767) a ints
    /\ float32_to_int16 a = flat_map int16_bytes ints
    /\ read_int16 (float32_to_int16 a) = Some ints.
Proof.
  intro Ha. exists (map sample_to_int16 a).
  split; [| split].
  - induction Ha as [| s a Hs Ha IH]; cbn [map]; constructor.
    + apply sample_to_int16_in_range. exact Hs.
    + exact IH.
  - clear Ha. induction a as [| s a IH]; [reflexivity |].
    rewrite float32_to_int16_cons. cbn [map flat_map int16_bytes app].
    rewrite IH. reflexivity.
  - apply read_back_samples. exact Ha.
Qed.

Lemma float32_to_int16_truncates_witness :
  exists ints,
    Forall2 (fun s z =>
               trunc_toward_zero (SFmul prec32 emax32 s f32_32767) = Some z
               /\ -32767 <= z <= 32767)
      [float32_of_bits 0x3E800000; float32_of_bits 0xBF800000] ints
    /\ float32_to_int16 [float32_of_bits 0x3E800000; float32_of_bits 0xBF800000]
       = flat_map int16_bytes ints
    /\ read_int16
         (float32_to_int16 [float32_of_bits 0x3E800000; float32_of_bits 0xBF800000])
       = Some ints.
Proof.
  apply (float32_to_int16_truncates
           [float32_of_bits 0x3E800000; float32_of_bits 0xBF800000]).
  repeat constructor.
Defined.

(** C2: for every array of float32 samples in [-1.0, 1.0], reading the
    adapter's output back as 16-bit signed integers and dividing each by 32767
    gives a value less than one quantization step (1/32767) away from the
    sample. *)
Theorem round_trip_within_one_step (a : list float32) :
  unit_range_array a ->
  exists ints,
    read_int16 (float32_to_int16 a) = Some ints
    /\ Forall2 (fun s z =>
                  exists v, float32_value s = Some v
                            /\ (Qabs (inject_Z z / 32767 - v) < 1 / 32767)%Q)
         a ints.
Proof.
  intro Ha. exists (map sample_to_int16 a).
  split; [apply read_back_samples; exact Ha |].
  induction Ha as [| s a Hs Ha IH]; cbn [map]; constructor; [| exact IH].
  unfold in_unit_range in Hs.
  destruct (float32_value s) as [v |] eqn:Ev; [| discriminate].
  exists v. split; [reflexivity |].
  apply scale_step. apply sample_to_int16_close; [| exact Ev].
  unfold in_unit_range. rewrite Ev. exact Hs.
Qed.

Lemma round_trip_within_one_step_witness :
  exists ints,
    read_int16
      (float32_to_int16 [float32_of_bits 0x3E800000; float32_of_bits 0x3F7FFFFF])
    = Some ints
    /\ Forall2 (fun s z =>
                  exists v, float32_value s = Some v
                            /\ (Qabs (inject_Z z / 32767 - v) < 1 / 32767)%Q)
         [float32_of_bits 0x3E800000; float32_of_bits 0x3F7FFFFF] ints.
Proof.
  apply (round_trip_within_one_step
           [float32_of_bits 0x3E800000; float32_of_bits 0x3F7FFFFF]).
  repeat constructor.
Defined.

(** C3: whatever the schedule, the responses written to the transport are an
    initial part, in push order, of the responses the partial and final
    callbacks handed to the event loop; while the sender task runs nothing is
    lost or reordered between loop, queue and transport; and once the
    scheduled puts have run and the sender has taken its turns on an open
    transport, exactly the pushed responses are written, in push order. So
    partial callbacks p1..pn followed by a final callback are written as
    p1..pn and then the final message. *)
Theorem delivery_preserves_push_order (py : interpreter) (u : pystr) (evs : list event) :
  let st := run py evs (new_session u) in
  (exists rest, pushed u evs = transport st ++ rest)
  /\ (sender st = Running ->
      pushed u evs = transport st ++ message_queue st ++ scheduled st)
  /\ (sender st = Running ->
      transport
        (run py (repeat RunScheduled (length (scheduled st))
              ++ repeat (SenderStep true)
                   (length (message_queue st) + length (scheduled st))) st)
      = pushed u evs).
Proof.
  cbn zeta. set (st := run py evs (new_session u)).
  destruct (run_in_flight (py:=py) u evs) as (lost & Hf & Hl). fold st in Hf, Hl.
  unfold in_flight in Hf.
  split; [| split].
  - eexists. symmetry. exact Hf.
  - intro Hs. rewrite (Hl Hs) in Hf. symmetry. exact Hf.
  - intro Hs. rewrite (Hl Hs) in Hf. cbn [app] in Hf.
    rewrite run_app.
    destruct (run_all_scheduled (py:=py) st) as (H1 & H2 & H3 & H4).
    set (st1 := run py (repeat RunScheduled (length (scheduled st))) st) in *.
    assert (Hlen : (length (message_queue st) + length (scheduled st))%nat
                   = length (message_queue st1))
      by (rewrite H2, length_app; reflexivity).
    rewrite Hlen.
    destruct (run_sender_drains (py:=py) st1 ltac:(congruence)) as (_ & Ht & _ & _).
    rewrite Ht, H3, H2. exact Hf.
Qed.

(** The scenario of C3 on a concrete schedule: two partial callbacks and one
    with a blank text, which pushes nothing, then the final callback; the loop
    and the sender then run until the queue is empty. *)
Lemma delivery_preserves_push_order_witness :
  transport
    (run cpython (repeat RunScheduled
            (length
               (scheduled
                  (run cpython [RealtimeUpdate (str "he") (str "id1");
                        RealtimeUpdate (str "  ") (str "id2");
                        RealtimeUpdate (str "hello") (str "id3");
                        FinalText (str "hello world") (str "id4")]
                     (new_session (str "peer")))))
          ++ repeat (SenderStep true)
               (length
                  (message_queue
                     (run cpython [RealtimeUpdate (str "he") (str "id1");
                           RealtimeUpdate (str "  ") (str "id2");
                           RealtimeUpdate (str "hello") (str "id3");
                           FinalText (str "hello world") (str "id4")]
                        (new_session (str "peer"))))
                + length
                    (scheduled
                       (run cpython [RealtimeUpdate (str "he") (str "id1");
                             RealtimeUpdate (str "  ") (str "id2");
                             RealtimeUpdate (str "hello") (str "id3");
                             FinalText (str "hello world") (str "id4")]
                          (new_session (str "peer"))))))
       (run cpython [RealtimeUpdate (str "he") (str "id1");
             RealtimeUpdate (str "  ") (str "id2");
             RealtimeUpdate (str "hello") (str "id3");
             FinalText (str "hello world") (str "id4")]
          (new_session (str "peer"))))
  = pushed (str "peer")
      [RealtimeUpdate (str "he") (str "id1");
       RealtimeUpdate (str "  ") (str "id2");
       RealtimeUpdate (str "hello") (str "id3");
       FinalText (str "hello world") (str "id4")].
Proof.
  apply (proj2 (proj2 (delivery_preserves_push_order cpython (str "peer")
                         [RealtimeUpdate (str "he") (str "id1");
                          RealtimeUpdate (str "  ") (str "id2");
                          RealtimeUpdate (str "hello") (str "id3");
                          FinalText (str "hello world") (str "id4")]))).
  reflexivity.
Defined.

(** The same scenario with the loop and the sender interleaved between the
    callbacks: the transport holds the two partial responses and then the
    final one. *)
Example partials_then_final_on_transport :
  transport
    (run cpython [RealtimeUpdate (str "he") (str "id1"); RunScheduled;
          RealtimeUpdate (str "  ") (str "id2");
          RealtimeUpdate (str "hello") (str "id3"); SenderStep true;
          FinalText (str "hello world") (str "id4");
          RunScheduled; RunScheduled; SenderStep true; SenderStep true]
       (new_session (str "peer")))
  = [make_response (str "peer") (str "inprogress") (str "he") false (str "id1");
     make_response (str "peer") (str "inprogress") (str "hello") false (str "id3");
     make_response (str "peer") (str "transcribed") (str "hello world") true
       (str "id4")].
Proof. vm_compute. reflexivity. Qed.

(** C4, as the specification words it, fails: after an end-of-stream message
    and the delivery of the final segment the handler is still receiving, the
    sender task still runs and nothing of the [finally] block was called; the
    session goes on, feeds the next audio frame and delivers a second final
    segment. *)
Lemma end_of_stream_leaves_session_open :
  receive
    (run cpython [Recv (Text (json_text "{'EOS': true}"));
          FinalText (str "hello") (str "id1"); RunScheduled; SenderStep true]
       (new_session (str "peer"))) = Receiving
  /\ sender
       (run cpython [Recv (Text (json_text "{'EOS': true}"));
             FinalText (str "hello") (str "id1"); RunScheduled; SenderStep true]
          (new_session (str "peer"))) = Running
  /\ calls
       (run cpython [Recv (Text (json_text "{'EOS': true}"));
             FinalText (str "hello") (str "id1"); RunScheduled; SenderStep true]
          (new_session (str "peer"))) = [Stop]
  /\ transport
       (run cpython [Recv (Text (json_text "{'EOS': true}"));
             FinalText (str "hello") (str "id1"); RunScheduled; SenderStep true]
          (new_session (str "peer")))
     = [make_response (str "peer") (str "transcribed") (str "hello") true (str "id1")]
  /\ calls
       (run cpython [Recv (Text (json_text "{'EOS': true}"));
             FinalText (str "hello") (str "id1"); RunScheduled; SenderStep true;
             Recv (Binary [x00; x00; x80; x3e]);
             FinalText (str "again") (str "id2"); RunScheduled; SenderStep true]
          (new_session (str "peer"))) = [Stop; FeedAudio [xff; x1f]]
  /\ length
       (transport
          (run cpython [Recv (Text (json_text "{'EOS': true}"));
                FinalText (str "hello") (str "id1"); RunScheduled; SenderStep true;
                Recv (Binary [x00; x00; x80; x3e]);
                FinalText (str "again") (str "id2"); RunScheduled; SenderStep true]
             (new_session (str "peer")))) = 2%nat.
Proof. repeat split; vm_compute; reflexivity. Qed.

(** C4 (amended): a text frame that decodes to a JSON object with a truthy
    [EOS] field makes the handler log the end of stream and call
    [recorder.stop()] once, and nothing else. The handler then keeps
    receiving: as long as no later event leaves the receive loop, the session
    stays in the loop, no call of the [finally] block is made and the sender
    task is not cancelled. The first event that leaves the loop (the
    connection closing, or a frame on which the body raises) makes the
    handler cancel the sender task, call [recorder.shutdown()] and join the
    recorder thread with a timeout of 2 seconds, in that order, and exit. *)
Theorem end_of_stream_stops_and_keeps_receiving (py : interpreter)
    (u : pystr) (before after : list event) (t : pystr)
    (pairs : list (pystr * json)) :
  existsb (leaves_loop py) before = false ->
  json_loads py t = Value (JDict pairs) ->
  truthy (dict_get (str "EOS") pairs) = true ->
  existsb (leaves_loop py) after = false ->
  let st0 := run py before (new_session u) in
  let st := run py (before ++ Recv (Text t) :: after) (new_session u) in
  step py (Recv (Text t)) st0 = add_call Stop (add_log InfoEndOfStream st0)
  /\ receive st = Receiving
  /\ no_teardown (calls st) = true
  /\ sender st <> Cancelled
  /\ forall ev, leaves_loop py ev = true ->
       (exists raised, receive (step py ev st) = Exited raised)
       /\ calls (step py ev st) = calls st ++ [SenderCancel; Shutdown; Join 2]
       /\ sender (step py ev st) <> Running.
Proof.
  intros Hb Hj Ht Ha. cbn zeta.
  pose proof (new_session_teardown_state u) as H0.
  destruct (run_teardown_state (py:=py) before (new_session u) H0 eq_refl) as [_ Hr0].
  apply Hr0 in Hb.
  assert (Hl : existsb (leaves_loop py) (before ++ Recv (Text t) :: after) = false).
  { rewrite existsb_app. apply orb_false_iff. split; [apply Hr0; exact Hb |].
    cbn [existsb leaves_loop raises]. rewrite Hj. exact Ha. }
  destruct (run_teardown_state (py:=py) (before ++ Recv (Text t) :: after) (new_session u)
              H0 eq_refl) as [Hi Hr].
  apply Hr in Hl. unfold teardown_state in Hi. rewrite Hl in Hi.
  destruct Hi as [Hn Hs].
  split; [| split; [exact Hl | split; [exact Hn | split; [exact Hs |]]]].
  - cbn [step]. rewrite Hb. unfold receive_body. rewrite Hj, Ht. reflexivity.
  - intros ev Hev.
    destruct (leaving_step (py:=py) ev _ Hl Hev) as (He & Hc & Hsd & _).
    auto.
Qed.

Lemma end_of_stream_stops_and_keeps_receiving_witness :
  step cpython (Recv (Text (json_text "{'EOS': true}")))
    (run cpython [Recv (Binary [x00; x00; x80; x3e])] (new_session (str "peer")))
  = add_call Stop
      (add_log InfoEndOfStream
         (run cpython [Recv (Binary [x00; x00; x80; x3e])] (new_session (str "peer"))))
  /\ receive
       (run cpython ([Recv (Binary [x00; x00; x80; x3e])]
             ++ Recv (Text (json_text "{'EOS': true}"))
                :: [FinalText (str "hello") (str "id1"); RunScheduled;
                    SenderStep true])
          (new_session (str "peer"))) = Receiving
  /\ no_teardown
       (calls
          (run cpython ([Recv (Binary [x00; x00; x80; x3e])]
                ++ Recv (Text (json_text "{'EOS': true}"))
                   :: [FinalText (str "hello") (str "id1"); RunScheduled;
                       SenderStep true])
             (new_session (str "peer")))) = true
  /\ sender
       (run cpython ([Recv (Binary [x00; x00; x80; x3e])]
             ++ Recv (Text (json_text "{'EOS': true}"))
                :: [FinalText (str "hello") (str "id1"); RunScheduled;
                    SenderStep true])
          (new_session (str "peer"))) <> Cancelled
  /\ forall ev, leaves_loop cpython ev = true ->
       (exists raised,
          receive
            (step cpython ev
               (run cpython ([Recv (Binary [x00; x00; x80; x3e])]
                     ++ Recv (Text (json_text "{'EOS': true}"))
                        :: [FinalText (str "hello") (str "id1"); RunScheduled;
                            SenderStep true])
                  (new_session (str "peer")))) = Exited raised)
       /\ calls
            (step cpython ev
               (run cpython ([Recv (Binary [x00; x00; x80; x3e])]
                     ++ Recv (Text (json_text "{'EOS': true}"))
                        :: [FinalText (str "hello") (str "id1"); RunScheduled;
                            SenderStep true])
                  (new_session (str "peer"))))
          = calls
              (run cpython ([Recv (Binary [x00; x00; x80; x3e])]
                    ++ Recv (Text (json_text "{'EOS': true}"))
                       :: [FinalText (str "hello") (str "id1"); RunScheduled;
                           SenderStep true])
                 (new_session (str "peer")))
            ++ [SenderCancel; Shutdown; Join 2]
       /\ sender
            (step cpython ev
               (run cpython ([Recv (Binary [x00; x00; x80; x3e])]
                     ++ Recv (Text (json_text "{'EOS': true}"))
                        :: [FinalText (str "hello") (str "id1"); RunScheduled;
                            SenderStep true])
                  (new_session (str "peer")))) <> Running.
Proof.
  apply (end_of_stream_stops_and_keeps_receiving cpython (str "peer")
           [Recv (Binary [x00; x00; x80; x3e])]
           [FinalText (str "hello") (str "id1"); RunScheduled; SenderStep true]
           (json_text "{'EOS': true}")
           [(str "EOS", JBool true)]);
    vm_compute; reflexivity.
Defined.




(** C6, as the specification words it, fails: the text frame
    [{'EOS': 'no'}] decodes to an object whose [EOS] field is the string
    [no], not [true], and the handler calls [recorder.stop()] all the same;
    so does [{'EOS': [0]}]. *)
Lemma stop_on_EOS_that_is_not_true :
  json_loads cpython (json_text "{'EOS': 'no'}") = Value (JDict [(str "EOS", JStr (str "no"))])
  /\ calls (step cpython (Recv (Text (json_text "{'EOS': 'no'}"))) (new_session (str "peer")))
     = [Stop]
  /\ json_loads cpython (json_text "{'EOS': [0]}") = Value (JDict [(str "EOS", JList [JInt 0])])
  /\ calls (step cpython (Recv (Text (json_text "{'EOS': [0]}"))) (new_session (str "peer")))
     = [Stop].
Proof. repeat split; vm_compute; reflexivity. Qed.

(** C6 (amended): while the handler receives, a text frame makes it call
    [recorder.stop()] if and only if the frame decodes to a JSON object whose
    [EOS] field is truthy in Python's sense (present, and not [null],
    [false], a zero, an empty string, an empty array or an empty object);
    the call is made once. Any other text frame makes no call of [stop], and
    no binary frame does. *)
Theorem stop_iff_truthy_EOS (py : interpreter) (st : session) (t : pystr) :
  receive st = Receiving ->
  (count_call is_stop (step py (Recv (Text t)) st) = S (count_call is_stop st)
   <-> exists pairs,
         json_loads py t = Value (JDict pairs)
         /\ truthy (dict_get (str "EOS") pairs) = true)
  /\ ((forall pairs, json_loads py t = Value (JDict pairs) ->
                     truthy (dict_get (str "EOS") pairs) = false) ->
      count_call is_stop (step py (Recv (Text t)) st) = count_call is_stop st)
  /\ forall data,
       count_call is_stop (step py (Recv (Binary data)) st) = count_call is_stop st.
Proof.
  intro Hr.
  assert (Hfin : forall e s, count_call is_stop (set_receive (Exited (Some e))
                                                    (finally_block s))
                             = count_call is_stop s).
  { intros e s. unfold count_call, set_receive; cbn [calls].
    destruct (finally_block_fields s) as (_ & _ & _ & _ & Hc & _).
    rewrite Hc, filter_app, app_nil_r. reflexivity. }
  assert (Hstop : forall s, count_call is_stop (add_call Stop (add_log InfoEndOfStream s))
                            = S (count_call is_stop s)).
  { intro s. unfold count_call; cbn [calls add_call add_log].
    rewrite filter_app, length_app. cbn. lia. }
  cbn [step]. rewrite Hr. unfold receive_body.
  split; [| split].
  - destruct (json_loads py t) as [[| b | z | f | s | l | pairs] | | e];
      try (rewrite ?Hfin; split; [lia | intros (p & Hp & _); discriminate]).
    destruct (truthy (dict_get (str "EOS") pairs)) eqn:Ht.
    + rewrite Hstop. split; [| reflexivity]. intros _. exists pairs. auto.
    + split; [lia |]. intros (p & Hp & Htp). inversion Hp; subst. congruence.
    + change (count_call is_stop (add_log (WarningNonJSON t) st))
        with (count_call is_stop st).
      split; [lia | intros (p & Hp & _); discriminate].
  - intro Hall.
    destruct (json_loads py t) as [[| b | z | f | s | l | pairs] | | e];
      rewrite ?Hfin; try reflexivity.
    rewrite (Hall pairs eq_refl). reflexivity.
  - intro data. destruct (frombuffer data) as [a |]; [| apply Hfin].
    unfold count_call; cbn [calls add_call].
    rewrite filter_app, app_nil_r. reflexivity.
Qed.

Lemma stop_iff_truthy_EOS_witness :
  (count_call is_stop
     (step cpython (Recv (Text (json_text "{'EOS': 1.5}"))) (new_session (str "peer")))
   = S (count_call is_stop (new_session (str "peer")))
   <-> exists pairs,
         json_loads cpython (json_text "{'EOS': 1.5}") = Value (JDict pairs)
         /\ truthy (dict_get (str "EOS") pairs) = true)
  /\ ((forall pairs, json_loads cpython (json_text "{'EOS': 1.5}") = Value (JDict pairs) ->
                     truthy (dict_get (str "EOS") pairs) = false) ->
      count_call is_stop
        (step cpython (Recv (Text (json_text "{'EOS': 1.5}"))) (new_session (str "peer")))
      = count_call is_stop (new_session (str "peer")))
  /\ forall data,
       count_call is_stop (step cpython (Recv (Binary data)) (new_session (str "peer")))
       = count_call is_stop (new_session (str "peer")).
Proof.
  apply (stop_iff_truthy_EOS cpython (new_session (str "peer")) (json_text "{'EOS': 1.5}")).
  reflexivity.
Defined.

(** C7, as the specification words it, fails: an end-of-stream message is
    no exit path. After the text frame [{'EOS': true}] the handler has called
    [recorder.stop()] and nothing of the [finally] block: the sender task
    runs, [shutdown] and [join] were not called, and the handler is still
    receiving. The teardown comes when the connection closes, once. *)
Lemma end_of_stream_runs_no_teardown :
  calls (run cpython [Recv (Text (json_text "{'EOS': true}"))]
           (new_session (str "peer"))) = [Stop]
  /\ count_call is_sender_cancel
       (run cpython [Recv (Text (json_text "{'EOS': true}"))]
          (new_session (str "peer"))) = 0%nat
  /\ count_call is_shutdown
       (run cpython [Recv (Text (json_text "{'EOS': true}"))]
          (new_session (str "peer"))) = 0%nat
  /\ count_call is_join
       (run cpython [Recv (Text (json_text "{'EOS': true}"))]
          (new_session (str "peer"))) = 0%nat
  /\ receive
       (run cpython [Recv (Text (json_text "{'EOS': true}"))]
          (new_session (str "peer"))) = Receiving
  /\ sender
       (run cpython [Recv (Text (json_text "{'EOS': true}"))]
          (new_session (str "peer"))) = Running
  /\ calls (run cpython [Recv (Text (json_text "{'EOS': true}"));
                         RecvClosed ClosedOK]
              (new_session (str "peer")))
     = [Stop; SenderCancel; Shutdown; Join 2].
Proof. repeat split; vm_compute; reflexivity. Qed.


(** C8: every response the callbacks produce, wherever it stands in the
    pipeline (written to the transport, queued, or scheduled), carries the
    session's identifier and a list of exactly one segment; the segment is
    completed exactly when its type is [transcribed] and not completed
    exactly when its type is [inprogress], and the status is [transforming]
    for a completed segment and [listening] otherwise. *)
Theorem responses_wrap_one_segment (py : interpreter) (u : pystr) (evs : list event) :
  Forall (callback_response u)
    (transport (run py evs (new_session u))
     ++ message_queue (run py evs (new_session u))
     ++ scheduled (run py evs (new_session u))).
Proof.
  apply session_Forall. intros text id _. apply make_response_callback.
Qed.

(** C9: a partial or final callback invoked with a text that is empty or all
    whitespace leaves the session as it is (nothing is pushed, nothing
    logged); and in every run each segment written to the transport, queued
    or scheduled has a text with at least one character that is no
    whitespace. *)
Theorem blank_text_never_pushed (py : interpreter) (u : pystr) (evs : list event) :
  (forall text id st,
     forallb isspace text = true ->
     step py (RealtimeUpdate text id) st = st /\ step py (FinalText text id) st = st)
  /\ Forall (fun r => Forall (fun g => has_visible_char (seg_text g) = true)
                        (resp_segments r))
       (transport (run py evs (new_session u))
        ++ message_queue (run py evs (new_session u))
        ++ scheduled (run py evs (new_session u))).
Proof.
  split.
  - intros text id st Hb. cbn [step].
    unfold on_realtime_update, on_final_text_callback.
    rewrite strip_truthy, has_visible_char_forallb, Hb. auto.
  - apply session_Forall. intros text id Hv.
    split; constructor; [exact Hv | constructor | exact Hv | constructor].
Qed.

Lemma blank_text_never_pushed_witness :
  step cpython (RealtimeUpdate (str "  ") (str "id1")) (new_session (str "peer"))
  = new_session (str "peer")
  /\ step cpython (FinalText (str "  ") (str "id1")) (new_session (str "peer"))
     = new_session (str "peer").
Proof.
  apply (proj1 (blank_text_never_pushed cpython (str "peer") [])).
  reflexivity.
Defined.

(** C10: while the handler receives, a binary frame whose length is no
    multiple of 4 makes [np.frombuffer] raise; [recorder.feed_audio] is not
    called for it, the handler runs its [finally] block (sender cancelled,
    recorder shut down, thread joined) and exits with the [ValueError]
    instead of going on receiving. *)
Theorem ragged_binary_frame_exits (py : interpreter) (st : session) (data : list byte) :
  receive st = Receiving ->
  (length data mod 4 <> 0)%nat ->
  frombuffer data = None
  /\ receive (step py (Recv (Binary data)) st) = Exited (Some ValueError)
  /\ calls (step py (Recv (Binary data)) st)
     = calls st ++ [SenderCancel; Shutdown; Join 2]
  /\ count_call is_feed (step py (Recv (Binary data)) st) = count_call is_feed st
  /\ sender (step py (Recv (Binary data)) st) <> Running.
Proof.
  intros Hr Hlen. apply frombuffer_None_iff in Hlen.
  cbn [step]. rewrite Hr. unfold receive_body. rewrite Hlen.
  unfold set_receive, count_call;
    cbn [uid scheduled message_queue transport sender calls receive log].
  destruct (finally_block_fields st) as (_ & _ & _ & _ & Hc & Hs & _).
  rewrite Hc, filter_app, app_nil_r. auto.
Qed.

Lemma ragged_binary_frame_exits_witness :
  frombuffer [x00; x00; x80; x3e; x00] = None
  /\ receive (step cpython (Recv (Binary [x00; x00; x80; x3e; x00])) (new_session (str "peer")))
     = Exited (Some ValueError)
  /\ calls (step cpython (Recv (Binary [x00; x00; x80; x3e; x00])) (new_session (str "peer")))
     = calls (new_session (str "peer")) ++ [SenderCancel; Shutdown; Join 2]
  /\ count_call is_feed
       (step cpython (Recv (Binary [x00; x00; x80; x3e; x00])) (new_session (str "peer")))
     = count_call is_feed (new_session (str "peer"))
  /\ sender (step cpython (Recv (Binary [x00; x00; x80; x3e; x00])) (new_session (str "peer")))
     <> Running.
Proof.
  apply (ragged_binary_frame_exits cpython (new_session (str "peer"))
           [x00; x00; x80; x3e; x00]).
  - reflexivity.
  - cbn. discriminate.
Defined.

(** * Further properties of the code *)

Section HandlerRunFacts.

Context {py : interpreter}.

Lemma is_eos_not_raises (data : pystr) : is_eos py data = true -> raises py (Text data) = false.
Proof.
  unfold is_eos, raises.
  destruct (json_loads py data) as [[| b | z | f | s | l | pairs] | | e];
    try discriminate; reflexivity.
Qed.

(** One frame that does not raise: the body makes the frame's calls and the
    handler goes on receiving. *)
Lemma step_handled_frame (message : frame) (st : session) :
  receive st = Receiving -> raises py message = false ->
  receive (step py (Recv message) st) = Receiving
  /\ calls (step py (Recv message) st) = calls st ++ frame_calls py message.
Proof.
  intros Hr Hn. cbn [step]. rewrite Hr.
  unfold receive_body, raises, frame_calls, is_eos in *.
  destruct message as [data | data].
  - destruct (frombuffer data); [| discriminate]. cbn. auto.
  - destruct (json_loads py data) as [[| b | z | f | s | l | pairs] | | e];
      try discriminate.
    + destruct (truthy _); cbn; rewrite ?app_nil_r; auto.
    + cbn. rewrite app_nil_r. auto.
Qed.

(** The calls of a run from a receiving state, in closed form. *)
Lemma calls_of_run (evs : list event) (st : session) :
  receive st = Receiving ->
  calls (run py evs st)
  = calls st ++ flat_map (frame_calls py) (handled_frames py evs)
    ++ (if existsb (leaves_loop py) evs then teardown_calls else []).
Proof.
  revert st. induction evs as [| ev evs IH]; intros st Hr.
  - cbn. rewrite app_nil_r. reflexivity.
  - rewrite run_cons.
    destruct ev as [message | k | text id | text id | | open].
    + cbn [handled_frames existsb leaves_loop].
      destruct (raises py message) eqn:Em.
      * destruct (leaving_step (py:=py) (Recv message) st Hr Em) as ((raised & He) & Hc & _).
        destruct (exited_calls_frozen (py:=py) evs (step py (Recv message) st)) as [_ Hf];
          [congruence |].
        rewrite Hf, Hc. reflexivity.
      * destruct (step_handled_frame message st Hr Em) as [Hr' Hc].
        rewrite (IH _ Hr'), Hc. cbn [flat_map orb]. rewrite <- !app_assoc.
        reflexivity.
    + cbn [handled_frames existsb leaves_loop orb].
      destruct (leaving_step (py:=py) (RecvClosed k) st Hr eq_refl) as ((raised & He) & Hc & _).
      destruct (exited_calls_frozen (py:=py) evs (step py (RecvClosed k) st)) as [_ Hf];
        [congruence |].
      rewrite Hf, Hc. reflexivity.
    + destruct (callbacks_keep_handler (py:=py) (RealtimeUpdate text id) st I) as (H1 & H2 & _).
      rewrite IH by congruence. rewrite H2. reflexivity.
    + destruct (callbacks_keep_handler (py:=py) (FinalText text id) st I) as (H1 & H2 & _).
      rewrite IH by congruence. rewrite H2. reflexivity.
    + destruct (callbacks_keep_handler (py:=py) RunScheduled st I) as (H1 & H2 & _).
      rewrite IH by congruence. rewrite H2. reflexivity.
    + destruct (callbacks_keep_handler (py:=py) (SenderStep open) st I) as (H1 & H2 & _).
      rewrite IH by congruence. rewrite H2. reflexivity.
Qed.

(** Once the sender task no longer runs, nothing is written to the transport
    any more, and what the callbacks push from then on piles up behind what
    was queued. *)
Lemma stopped_sender_step (ev : event) (st : session) :
  sender st <> Running ->
  sender (step py ev st) <> Running
  /\ transport (step py ev st) = transport st
  /\ message_queue (step py ev st) ++ scheduled (step py ev st)
     = (message_queue st ++ scheduled st) ++ pushed (uid st) [ev].
Proof.
  intro Hs.
  destruct ev as [message | k | text id | text id | | open]; cbn [step pushed].
  - rewrite app_nil_r. destruct (receive st); [| auto].
    pose proof (receive_body_fields (py:=py) message st) as H.
    destruct (receive_body py message st) as [st' | e st'];
      destruct H as (_ & Hsc & Hq & Ht & Hsd & _).
    + rewrite Hsc, Hq, Ht, Hsd. auto.
    + unfold set_receive;
        cbn [uid scheduled message_queue transport sender calls receive log].
      destruct (finally_block_fields st') as (_ & Hsc' & Hq' & Ht' & _ & Hn & _).
      rewrite Hsc', Hq', Ht', Hsc, Hq, Ht. auto.
  - rewrite app_nil_r. destruct (receive st); [| auto].
    unfold set_receive;
      cbn [uid scheduled message_queue transport sender calls receive log].
    match goal with |- context [finally_block ?s] =>
      destruct (finally_block_fields s) as (_ & Hsc' & Hq' & Ht' & _ & Hn & _);
      rewrite Hsc', Hq', Ht' end.
    destruct k; auto.
  - unfold on_realtime_update.
    destruct (str_truthy (strip text)); cbn; rewrite ?app_nil_r, <- ?app_assoc; auto.
  - unfold on_final_text_callback.
    destruct (str_truthy (strip text)); cbn; rewrite ?app_nil_r, <- ?app_assoc; auto.
  - rewrite app_nil_r. unfold run_scheduled.
    destruct (scheduled st) as [| m rest] eqn:Es; cbn.
    + rewrite Es. auto.
    + rewrite <- app_assoc. auto.
  - rewrite app_nil_r. unfold sender_task_step.
    destruct (sender st) eqn:E; [contradiction | |]; rewrite E; auto.
Qed.

Lemma stopped_sender_run (evs : list event) (st : session) :
  sender st <> Running ->
  sender (run py evs st) <> Running
  /\ transport (run py evs st) = transport st
  /\ message_queue (run py evs st) ++ scheduled (run py evs st)
     = (message_queue st ++ scheduled st) ++ pushed (uid st) evs.
Proof.
  intro Hs. induction evs as [| ev evs IH] using rev_ind.
  - cbn. rewrite app_nil_r. auto.
  - rewrite run_snoc, pushed_app. destruct IH as (H1 & H2 & H3).
    destruct (stopped_sender_step ev (run py evs st) H1) as (H1' & H2' & H3').
    rewrite H2', H3', H3, H2, run_uid, <- app_assoc. auto.
Qed.

End HandlerRunFacts.

Section AdapterComposition.

Lemma frombuffer_app (d1 d2 : list byte) (a1 : list float32) :
  frombuffer d1 = Some a1 ->
  frombuffer (d1 ++ d2)
  = match frombuffer d2 with
    | Some a2 => Some (a1 ++ a2)
    | None => None
    end.
Proof.
  remember (length d1) as n eqn:Hn.
  revert d1 a1 Hn. induction n as [n IH] using lt_wf_ind. intros d1 a1 Hn.
  destruct d1 as [| b0 [| b1 [| b2 [| b3 rest]]]]; cbn [frombuffer app];
    try discriminate.
  - intro H. inversion H. cbn. destruct (frombuffer d2); reflexivity.
  - destruct (frombuffer rest) as [a' |] eqn:E; [| discriminate].
    intro H. inversion H. subst a1.
    rewrite (IH (length rest)) with (a1 := a') by (subst n; cbn; lia || auto).
    destruct (frombuffer d2); reflexivity.
Qed.

Lemma float32_to_int16_app (a1 a2 : list float32) :
  float32_to_int16 (a1 ++ a2) = float32_to_int16 a1 ++ float32_to_int16 a2.
Proof.
  unfold float32_to_int16, tobytes, mul_32767.
  rewrite !map_app, flat_map_app. reflexivity.
Qed.

Lemma binary_round_aux_negb (prec emax : Z) (sx : bool) (mx ex : Z) (lx : location) :
  binary_round_aux prec emax (negb sx) mx ex lx
  = SFopp (binary_round_aux prec emax sx mx ex lx).
Proof.
  unfold binary_round_aux.
  destruct (shr_fexp prec emax mx ex lx) as [mrs1 e1].
  destruct (shr_fexp prec emax _ e1 loc_Exact) as [mrs2 e2].
  destruct (shr_m mrs2); try reflexivity.
  destruct (e2 <=? emax - prec); reflexivity.
Qed.

Lemma mul_32767_opp (s : float32) :
  SFmul prec32 emax32 (SFopp s) f32_32767
  = SFopp (SFmul prec32 emax32 s f32_32767).
Proof.
  change f32_32767 with (S754_finite false 16776704 (-9)).
  destruct s as [sx | sx | | sx mx ex]; cbn [SFopp SFmul];
    rewrite ?xorb_false_r; try reflexivity.
  apply binary_round_aux_negb.
Qed.

Lemma trunc_toward_zero_opp (x : float32) :
  trunc_toward_zero (SFopp x) = option_map Z.opp (trunc_toward_zero x).
Proof.
  destruct x as [sx | sx | | sx mx ex]; cbn; try reflexivity.
  destruct sx; cbn; rewrite ?Z.opp_involutive; reflexivity.
Qed.

End AdapterComposition.

Section DownloadFacts.

Lemma pystr_eqb_eq (a b : pystr) : pystr_eqb a b = true <-> a = b.
Proof.
  revert b. induction a as [| x a IH]; intros [| y b]; cbn;
    try (split; [discriminate | discriminate]); [tauto |].
  rewrite andb_true_iff, N.eqb_eq, IH. split.
  - intros [-> ->]. reflexivity.
  - intro H. inversion H. auto.
Qed.

Lemma get_model_url_None_iff (model_name : pystr) :
  get_model_url model_name = None <-> ~ In model_name known_model_names.
Proof.
  unfold get_model_url, known_model_names.
  induction WHISPER_MODEL_URLS as [| [k v] l IH]; cbn [find map In fst].
  - tauto.
  - destruct (pystr_eqb k model_name) eqn:E.
    + apply pystr_eqb_eq in E. split; [discriminate | intro H; contradiction H; auto].
    + assert (k <> model_name) by (intro Hk; apply pystr_eqb_eq in Hk; congruence).
      rewrite IH. tauto.
Qed.

Lemma path_exists_created (path : pystr) (w : dl_world) :
  path_exists path (dl_create path w) = true.
Proof.
  unfold path_exists, dl_create. cbn.
  replace (pystr_eqb path path) with true; [reflexivity |].
  symmetry. apply pystr_eqb_eq. reflexivity.
Qed.

End DownloadFacts.

Section DownloadSteps.

Lemma get_model_url_known (model_name : pystr) :
  In model_name known_model_names ->
  exists c url, get_model_url model_name = Some (c :: url).
Proof.
  intro H. unfold known_model_names in H. cbn [map fst WHISPER_MODEL_URLS] in H.
  cbn [In] in H.
  repeat (destruct H as [H | H]; [subst model_name; eexists; eexists; reflexivity |]).
  contradiction.
Qed.

(** A call for a known model whose file is not there: the directory is made,
    the download is announced and run. *)
Lemma download_model_runs (wget : wget_result) (model_name output_dir : pystr)
    (w : dl_world) (c : N) (url : pystr) :
  get_model_url model_name = Some (c :: url) ->
  path_exists (path_join output_dir (model_name ++ str ".pt")) w = false ->
  download_model true wget model_name output_dir w
  = let output_path := path_join output_dir (model_name ++ str ".pt") in
    let w' := dl_do (RunProcess [str "wget"; str "-O"; output_path; c :: url])
                (dl_do (PrintDownloading model_name (c :: url) output_path)
                   (dl_do (Makedirs output_dir) w)) in
    match wget with
    | WgetDone => (DlReturn (Some output_path), dl_create output_path w')
    | WgetFailed leaves_file =>
        (DlReturn None,
         dl_do PrintFailed (if leaves_file then dl_create output_path w' else w'))
    end.
Proof.
  intros Hu He. unfold download_model. rewrite Hu. cbn [negb].
  change (path_exists (path_join output_dir (model_name ++ str ".pt"))
            (dl_do (Makedirs output_dir) w))
    with (path_exists (path_join output_dir (model_name ++ str ".pt")) w).
  rewrite He. reflexivity.
Qed.

(** A call for a known model whose file is there: nothing is run. *)
Lemma download_model_finds (wget : wget_result) (model_name output_dir : pystr)
    (w : dl_world) (c : N) (url : pystr) :
  get_model_url model_name = Some (c :: url) ->
  path_exists (path_join output_dir (model_name ++ str ".pt")) w = true ->
  download_model true wget model_name output_dir w
  = (DlReturn (Some (path_join output_dir (model_name ++ str ".pt"))),
     dl_do (PrintAlreadyExists (path_join output_dir (model_name ++ str ".pt")))
       (dl_do (Makedirs output_dir) w)).
Proof.
  intros Hu He. unfold download_model. rewrite Hu. cbn [negb].
  change (path_exists (path_join output_dir (model_name ++ str ".pt"))
            (dl_do (Makedirs output_dir) w))
    with (path_exists (path_join output_dir (model_name ++ str ".pt")) w).
  rewrite He. reflexivity.
Qed.

Lemma path_exists_dl_do (path : pystr) (e : dl_effect) (w : dl_world) :
  path_exists path (dl_do e w) = path_exists path w.
Proof. reflexivity. Qed.

Lemma run_processes_dl_do (e : dl_effect) (w : dl_world) :
  filter is_run_process (effects (dl_do e w))
  = filter is_run_process (effects w) ++ (if is_run_process e then [e] else []).
Proof.
  unfold dl_do. cbn [effects]. rewrite filter_app. cbn [filter].
  destruct (is_run_process e); reflexivity.
Qed.

End DownloadSteps.

Section LimitFacts.

Context {py : interpreter}.

(** Arrays opened deeper than the budget of nested calls: the decoder raises
    at the first bracket it has no level left for, before it reads on. *)
Lemma scan_deep_arrays (depth fuel n : nat) (rest : pystr) :
  (depth < n)%nat -> (2 * depth + 1 <= fuel)%nat ->
  scan_once py fuel depth (repeat 91%N n ++ rest) = ScanRaised RecursionError.
Proof.
  revert fuel n. induction depth as [| depth IH]; intros fuel n Hn Hf.
  - destruct n as [| n]; [lia |]. destruct fuel as [| fuel]; [lia |].
    reflexivity.
  - destruct n as [| [| n]]; try lia.
    destruct fuel as [| [| fuel]]; try lia.
    cbn [repeat app scan_once parse_pairs parse_items].
    change (91 =? 34)%N with false. change (91 =? 123)%N with false.
    change (91 =? 91)%N with true. cbn iota.
    change (skip_ws (91%N :: repeat 91%N n ++ rest))
      with (91%N :: repeat 91%N n ++ rest).
    change (91 =? 93)%N with false. cbn iota.
    change (91%N :: repeat 91%N n ++ rest) with (repeat 91%N (S n) ++ rest).
    rewrite IH by lia. reflexivity.
Qed.

Lemma strip_prefix_digit (c : N) (prefix s : pystr) :
  is_digit c = true ->
  match prefix with p :: _ => is_digit p | [] => true end = false ->
  strip_prefix prefix (c :: s) = None.
Proof.
  intros Hc Hp. destruct prefix as [| p prefix]; [discriminate |].
  cbn [strip_prefix].
  destruct (p =? c)%N eqn:E; [| reflexivity].
  apply N.eqb_eq in E. subst. congruence.
Qed.

Lemma span_digits_all (ds : pystr) :
  forallb is_digit ds = true -> span_digits ds = (ds, []).
Proof.
  induction ds as [| d ds IH]; [reflexivity |].
  cbn [forallb span_digits]. intro H. apply andb_true_iff in H.
  destruct H as [Hd Hds]. rewrite Hd, (IH Hds). reflexivity.
Qed.

(** A text that is one run of digits, longer than [int] converts. *)
Lemma scan_long_integer (fuel depth : nat) (c : N) (ds : pystr) :
  is_digit c = true -> c <> 48%N -> forallb is_digit ds = true ->
  int_too_long py (S (length ds)) = true ->
  scan_once py (S fuel) depth (c :: ds) = ScanRaised ValueError.
Proof.
  intros Hc H0 Hds Hlong.
  assert (Hr : (48 <= c <= 57)%N).
  { unfold is_digit in Hc. apply andb_true_iff in Hc.
    destruct Hc as [H1 H2]. apply N.leb_le in H1, H2. lia. }
  cbn [scan_once parse_pairs parse_items].
  replace (c =? 34)%N with false by (symmetry; apply N.eqb_neq; lia).
  replace (c =? 123)%N with false by (symmetry; apply N.eqb_neq; lia).
  replace (c =? 91)%N with false by (symmetry; apply N.eqb_neq; lia).
  unfold scan_atom.
  rewrite !(strip_prefix_digit c) by (exact Hc || reflexivity).
  unfold match_number.
  replace (c =? 45)%N with false by (symmetry; apply N.eqb_neq; lia).
  rewrite Hc.
  replace (c =? 48)%N with false by (symmetry; apply N.eqb_neq; lia).
  cbn [span_digits]. rewrite Hc, (span_digits_all ds Hds).
  cbn [match_fraction match_exponent length]. rewrite Hlong. reflexivity.
Qed.

(** An exception that [json.loads] raises and the handler does not catch
    ends the session through the [finally] block, with no warning logged and
    no [stop]. *)
Lemma raised_text_frame_exits (st : session) (t : pystr) (e : exn) :
  receive st = Receiving ->
  json_loads py t = Raised e ->
  receive (step py (Recv (Text t)) st) = Exited (Some e)
  /\ calls (step py (Recv (Text t)) st) = calls st ++ teardown_calls
  /\ log (step py (Recv (Text t)) st) = log st ++ [InfoCleaningUp]
  /\ sender (step py (Recv (Text t)) st) <> Running.
Proof.
  intros Hr Hj. cbn [step]. rewrite Hr. unfold receive_body. rewrite Hj.
  unfold set_receive;
    cbn [uid scheduled message_queue transport sender calls receive log].
  destruct (finally_block_fields st) as (_ & _ & _ & _ & Hc & Hs & _).
  repeat split; auto.
Qed.

End LimitFacts.

(** * Properties beyond the claims *)

(** X1: while the handler receives, a binary frame whose length is a
    multiple of 4 (the empty frame included) makes it call
    [recorder.feed_audio] once, with half as many bytes as the frame has, and
    changes nothing else of the session: no log entry, no other call, and the
    handler goes on receiving. *)
Theorem binary_frame_feeds_half_its_bytes (py : interpreter) (st : session) (data : list byte) :
  receive st = Receiving ->
  (length data mod 4 = 0)%nat ->
  exists pcm,
    step py (Recv (Binary data)) st = add_call (FeedAudio pcm) st
    /\ (2 * length pcm = length data)%nat.
Proof.
  intros Hr Hlen.
  destruct (frombuffer data) as [a |] eqn:E.
  - exists (float32_to_int16 a). split.
    + cbn [step]. rewrite Hr. unfold receive_body. rewrite E. reflexivity.
    + rewrite float32_to_int16_length, (frombuffer_length data a E). lia.
  - apply frombuffer_None_iff in E. contradiction.
Qed.

Lemma binary_frame_feeds_half_its_bytes_witness :
  exists pcm,
    step cpython (Recv (Binary [x00; x00; x80; x3e; x00; x00; x80; xbf]))
      (new_session (str "peer"))
    = add_call (FeedAudio pcm) (new_session (str "peer"))
    /\ (2 * length pcm = length [x00; x00; x80; x3e; x00; x00; x80; xbf])%nat.
Proof.
  apply (binary_frame_feeds_half_its_bytes cpython (new_session (str "peer"))
           [x00; x00; x80; x3e; x00; x00; x80; xbf]); reflexivity.
Defined.

(** X2: where a stream of samples is cut into frames does not matter to the
    PCM bytes produced. For a buffer cut at a multiple of 4 bytes, the whole
    buffer decodes exactly when its second part does, and then the adapter's
    output for the whole is the output for the first part followed by the
    output for the second. *)
Theorem adapter_ignores_frame_boundaries (d1 d2 : list byte) :
  (length d1 mod 4 = 0)%nat ->
  match frombuffer (d1 ++ d2) with
  | Some a =>
      exists a1 a2,
        frombuffer d1 = Some a1 /\ frombuffer d2 = Some a2
        /\ float32_to_int16 a = float32_to_int16 a1 ++ float32_to_int16 a2
  | None => frombuffer d2 = None
  end.
Proof.
  intro Hlen.
  destruct (frombuffer d1) as [a1 |] eqn:E1.
  - rewrite (frombuffer_app d1 d2 a1 E1).
    destruct (frombuffer d2) as [a2 |]; [| reflexivity].
    exists a1, a2. repeat split. apply float32_to_int16_app.
  - apply frombuffer_None_iff in E1. contradiction.
Qed.

Lemma adapter_ignores_frame_boundaries_witness :
  match frombuffer ([x00; x00; x80; x3e] ++ [x00; x00; x80; xbf]) with
  | Some a =>
      exists a1 a2,
        frombuffer [x00; x00; x80; x3e] = Some a1
        /\ frombuffer [x00; x00; x80; xbf] = Some a2
        /\ float32_to_int16 a = float32_to_int16 a1 ++ float32_to_int16 a2
  | None => frombuffer [x00; x00; x80; xbf] = None
  end.
Proof.
  apply (adapter_ignores_frame_boundaries [x00; x00; x80; x3e] [x00; x00; x80; xbf]).
  reflexivity.
Defined.

(** X3: the conversion is symmetric about zero on the range: negating a
    sample of [-1.0, 1.0] negates the integer it becomes (the fraction is
    dropped toward zero on both sides), so the adapter adds no offset. *)
Theorem adapter_is_odd (s : float32) :
  in_unit_range s = true ->
  sample_to_int16 (SFopp s) = - sample_to_int16 s
  /\ float32_to_int16 [SFopp s] = int16_bytes (- sample_to_int16 s).
Proof.
  intro Hr.
  destruct (sample_to_int16_in_range s Hr) as [Ht Hb].
  assert (Ho : sample_to_int16 (SFopp s) = - sample_to_int16 s).
  { unfold sample_to_int16 at 1. unfold astype_int16.
    rewrite mul_32767_opp, trunc_toward_zero_opp, Ht. cbn [option_map].
    replace ((- 2 ^ 31 <=? - sample_to_int16 s) && (- sample_to_int16 s <? 2 ^ 31))
      with true.
    - apply wrap_int16_small. lia.
    - symmetry. apply andb_true_iff.
      split; [apply Z.leb_le | apply Z.ltb_lt];
        change (2 ^ 31) with 2147483648; lia. }
  split; [exact Ho |].
  rewrite float32_to_int16_cons, Ho. reflexivity.
Qed.

Lemma adapter_is_odd_witness :
  sample_to_int16 (SFopp (float32_of_bits 0x3E800000))
  = - sample_to_int16 (float32_of_bits 0x3E800000)
  /\ float32_to_int16 [SFopp (float32_of_bits 0x3E800000)]
     = int16_bytes (- sample_to_int16 (float32_of_bits 0x3E800000)).
Proof.
  apply (adapter_is_odd (float32_of_bits 0x3E800000)). reflexivity.
Defined.

(** X4: what the handler calls depends on the frames it receives and on
    nothing else. In every run, whatever the engine's callbacks, the loop and
    the sender task do in between, the handler's calls are, in order of
    arrival: one [feed_audio] with the converted samples for each binary
    frame that decodes, one [stop] for each end-of-stream text frame, nothing
    for any other text frame; then, if the loop was left, the three calls of
    the [finally] block; and nothing for any frame after that. *)
Theorem handler_calls_follow_frames (py : interpreter) (u : pystr) (evs : list event) :
  calls (run py evs (new_session u))
  = flat_map (frame_calls py) (handled_frames py evs)
    ++ (if existsb (leaves_loop py) evs then [SenderCancel; Shutdown; Join 2] else []).
Proof. apply (calls_of_run (py:=py) evs (new_session u)). reflexivity. Qed.

(** X5: end-of-stream messages are not deduplicated: in every run
    [recorder.stop()] has been called exactly as many times as end-of-stream
    text frames were received before the handler left its loop. *)
Theorem stop_once_per_eos_frame (py : interpreter) (u : pystr) (evs : list event) :
  count_call is_stop (run py evs (new_session u))
  = length (filter (is_eos_frame py) (handled_frames py evs)).
Proof.
  unfold count_call.
  rewrite (calls_of_run (py:=py) evs (new_session u) eq_refl). cbn [calls new_session app].
  rewrite filter_app.
  replace (filter is_stop (if existsb (leaves_loop py) evs then teardown_calls else []))
    with (@nil call) by (destruct (existsb (leaves_loop py) evs); reflexivity).
  rewrite app_nil_r.
  induction (handled_frames py evs) as [| m l IH]; [reflexivity |].
  cbn [flat_map filter]. rewrite filter_app, length_app, IH.
  destruct m as [data | data]; cbn [frame_calls is_eos_frame].
  - destruct (frombuffer data); reflexivity.
  - destruct (is_eos py data); reflexivity.
Qed.

(** X6: a text frame that is valid JSON but no object (an array, a number,
    a string, [true], [false], [null]) ends the session: [data.get] raises
    [AttributeError], which the handler does not catch, so the [finally]
    block runs (its log line and its three calls) and the handler is gone. *)
Theorem non_object_text_frame_ends_session (py : interpreter) (st : session) (t : pystr) (v : json) :
  receive st = Receiving ->
  json_loads py t = Value v ->
  (forall pairs, v <> JDict pairs) ->
  receive (step py (Recv (Text t)) st) = Exited (Some AttributeError)
  /\ calls (step py (Recv (Text t)) st) = calls st ++ [SenderCancel; Shutdown; Join 2]
  /\ log (step py (Recv (Text t)) st) = log st ++ [InfoCleaningUp]
  /\ sender (step py (Recv (Text t)) st) <> Running.
Proof. apply non_object_json_is_fatal. Qed.

Lemma non_object_text_frame_ends_session_witness :
  receive (step cpython (Recv (Text (json_text "[1, 2]"))) (new_session (str "peer")))
  = Exited (Some AttributeError)
  /\ calls (step cpython (Recv (Text (json_text "[1, 2]"))) (new_session (str "peer")))
     = calls (new_session (str "peer")) ++ [SenderCancel; Shutdown; Join 2]
  /\ log (step cpython (Recv (Text (json_text "[1, 2]"))) (new_session (str "peer")))
     = log (new_session (str "peer")) ++ [InfoCleaningUp]
  /\ sender (step cpython (Recv (Text (json_text "[1, 2]"))) (new_session (str "peer")))
     <> Running.
Proof.
  apply (non_object_text_frame_ends_session cpython (new_session (str "peer"))
           (json_text "[1, 2]") (JList [JInt 1; JInt 2])).
  - reflexivity.
  - vm_compute. reflexivity.
  - intros pairs H. discriminate H.
Defined.

(** X7: once the handler has left its loop nothing more is written to the
    transport, in any continuation of the run; the responses the engine's
    callbacks still push are kept behind what was queued and never sent. *)
Theorem nothing_sent_after_teardown (py : interpreter) (u : pystr) (evs more : list event) :
  receive (run py evs (new_session u)) <> Receiving ->
  transport (run py more (run py evs (new_session u)))
  = transport (run py evs (new_session u))
  /\ message_queue (run py more (run py evs (new_session u)))
     ++ scheduled (run py more (run py evs (new_session u)))
     = (message_queue (run py evs (new_session u))
        ++ scheduled (run py evs (new_session u)))
       ++ pushed u more.
Proof.
  intro Hr.
  destruct (run_teardown_state (py:=py) evs (new_session u)
              (new_session_teardown_state u) eq_refl) as [Hi _].
  unfold teardown_state in Hi.
  destruct (receive (run py evs (new_session u))) eqn:Er; [contradiction Hr; reflexivity |].
  destruct Hi as [Hs _].
  destruct (stopped_sender_run (py:=py) more _ Hs) as (_ & Ht & Hq).
  rewrite run_uid in Hq. auto.
Qed.

Lemma nothing_sent_after_teardown_witness :
  transport
    (run cpython [FinalText (str "late") (str "id2"); RunScheduled; SenderStep true]
       (run cpython [FinalText (str "hello") (str "id1"); RunScheduled; SenderStep true;
             RecvClosed ClosedOK]
          (new_session (str "peer"))))
  = transport
      (run cpython [FinalText (str "hello") (str "id1"); RunScheduled; SenderStep true;
            RecvClosed ClosedOK]
         (new_session (str "peer")))
  /\ message_queue
       (run cpython [FinalText (str "late") (str "id2"); RunScheduled; SenderStep true]
          (run cpython [FinalText (str "hello") (str "id1"); RunScheduled; SenderStep true;
                RecvClosed ClosedOK]
             (new_session (str "peer"))))
     ++ scheduled
          (run cpython [FinalText (str "late") (str "id2"); RunScheduled; SenderStep true]
             (run cpython [FinalText (str "hello") (str "id1"); RunScheduled; SenderStep true;
                   RecvClosed ClosedOK]
                (new_session (str "peer"))))
     = (message_queue
          (run cpython [FinalText (str "hello") (str "id1"); RunScheduled; SenderStep true;
                RecvClosed ClosedOK]
             (new_session (str "peer")))
        ++ scheduled
             (run cpython [FinalText (str "hello") (str "id1"); RunScheduled; SenderStep true;
                   RecvClosed ClosedOK]
                (new_session (str "peer"))))
       ++ pushed (str "peer")
            [FinalText (str "late") (str "id2"); RunScheduled; SenderStep true].
Proof.
  apply (nothing_sent_after_teardown cpython (str "peer")
           [FinalText (str "hello") (str "id1"); RunScheduled; SenderStep true;
            RecvClosed ClosedOK]
           [FinalText (str "late") (str "id2"); RunScheduled; SenderStep true]).
  vm_compute. discriminate.
Defined.

(** X8: when [websocket.send] finds the connection closed, the sender task
    ends: the message it had taken from the queue is dropped, and from then
    on nothing is written to the transport, whatever happens next, even if
    the handler has not yet noticed the close; what is pushed afterwards
    stays queued. *)
Theorem closed_transport_ends_sender (py : interpreter) (st : session) (m : response)
    (rest : list response) (evs : list event) :
  sender st = Running ->
  message_queue st = m :: rest ->
  sender (step py (SenderStep false) st) = Finished
  /\ message_queue (step py (SenderStep false) st) = rest
  /\ transport (step py (SenderStep false) st) = transport st
  /\ transport (run py evs (step py (SenderStep false) st)) = transport st
  /\ message_queue (run py evs (step py (SenderStep false) st))
     ++ scheduled (run py evs (step py (SenderStep false) st))
     = (rest ++ scheduled st) ++ pushed (uid st) evs.
Proof.
  intros Hs Hq.
  assert (E : step py (SenderStep false) st
              = {| uid := uid st; receive := receive st; calls := calls st;
                   log := log st; scheduled := scheduled st;
                   message_queue := rest; sender := Finished;
                   transport := transport st |}).
  { cbn [step]. unfold sender_task_step. rewrite Hs, Hq. reflexivity. }
  rewrite E. cbn [sender message_queue transport].
  repeat (split; [reflexivity |]).
  match goal with |- context [run py evs ?s] =>
    destruct (stopped_sender_run (py:=py) evs s) as (_ & Ht & Hm); [cbn; discriminate |] end.
  cbn [transport message_queue scheduled uid] in Ht, Hm. auto.
Qed.

Lemma closed_transport_ends_sender_witness :
  sender
    (step cpython (SenderStep false)
       (run cpython [FinalText (str "a") (str "id1"); FinalText (str "b") (str "id2");
             RunScheduled; RunScheduled] (new_session (str "peer")))) = Finished
  /\ message_queue
       (step cpython (SenderStep false)
          (run cpython [FinalText (str "a") (str "id1"); FinalText (str "b") (str "id2");
                RunScheduled; RunScheduled] (new_session (str "peer"))))
     = [make_response (str "peer") (str "transcribed") (str "b") true (str "id2")]
  /\ transport
       (step cpython (SenderStep false)
          (run cpython [FinalText (str "a") (str "id1"); FinalText (str "b") (str "id2");
                RunScheduled; RunScheduled] (new_session (str "peer"))))
     = transport
         (run cpython [FinalText (str "a") (str "id1"); FinalText (str "b") (str "id2");
               RunScheduled; RunScheduled] (new_session (str "peer")))
  /\ transport
       (run cpython [SenderStep true; SenderStep true]
          (step cpython (SenderStep false)
             (run cpython [FinalText (str "a") (str "id1"); FinalText (str "b") (str "id2");
                   RunScheduled; RunScheduled] (new_session (str "peer")))))
     = transport
         (run cpython [FinalText (str "a") (str "id1"); FinalText (str "b") (str "id2");
               RunScheduled; RunScheduled] (new_session (str "peer")))
  /\ message_queue
       (run cpython [SenderStep true; SenderStep true]
          (step cpython (SenderStep false)
             (run cpython [FinalText (str "a") (str "id1"); FinalText (str "b") (str "id2");
                   RunScheduled; RunScheduled] (new_session (str "peer")))))
     ++ scheduled
          (run cpython [SenderStep true; SenderStep true]
             (step cpython (SenderStep false)
                (run cpython [FinalText (str "a") (str "id1"); FinalText (str "b") (str "id2");
                      RunScheduled; RunScheduled] (new_session (str "peer")))))
     = ([make_response (str "peer") (str "transcribed") (str "b") true (str "id2")]
        ++ scheduled
             (run cpython [FinalText (str "a") (str "id1"); FinalText (str "b") (str "id2");
                   RunScheduled; RunScheduled] (new_session (str "peer"))))
       ++ pushed
            (uid (run cpython [FinalText (str "a") (str "id1"); FinalText (str "b") (str "id2");
                       RunScheduled; RunScheduled] (new_session (str "peer"))))
            [SenderStep true; SenderStep true].
Proof.
  apply (closed_transport_ends_sender cpython
           (run cpython [FinalText (str "a") (str "id1"); FinalText (str "b") (str "id2");
                 RunScheduled; RunScheduled] (new_session (str "peer")))
           (make_response (str "peer") (str "transcribed") (str "a") true (str "id1"))
           [make_response (str "peer") (str "transcribed") (str "b") true (str "id2")]
           [SenderStep true; SenderStep true]);
    vm_compute; reflexivity.
Defined.

(** X9: [download_model] refuses a name that is not one of the eleven keys of
    [WHISPER_MODEL_URLS] (the match is exact and case-sensitive) by raising
    [ValueError] before it touches anything: no directory is made, nothing is
    printed, no process is run. *)
Theorem unknown_model_name_raises (makedirs_ok : bool) (wget : wget_result)
    (model_name output_dir : pystr) (w : dl_world) :
  ~ In model_name known_model_names ->
  get_model_url model_name = None
  /\ download_model makedirs_ok wget model_name output_dir w
     = (DlRaise (UnknownModelName model_name), w).
Proof.
  intro H. apply get_model_url_None_iff in H.
  split; [exact H |]. unfold download_model. rewrite H. reflexivity.
Qed.

Lemma unknown_model_name_raises_witness :
  get_model_url (str "Tiny") = None
  /\ download_model true WgetDone (str "Tiny") (str "/models")
       {| existing := []; effects := [] |}
     = (DlRaise (UnknownModelName (str "Tiny")), {| existing := []; effects := [] |}).
Proof.
  apply (unknown_model_name_raises true WgetDone (str "Tiny") (str "/models")
           {| existing := []; effects := [] |}).
  apply get_model_url_None_iff. reflexivity.
Defined.

(** X10: downloading is done once. For a known model whose file is not yet
    in the output directory, a call whose [wget] succeeds runs [wget -O path
    url] once and returns the path; a second call for the same model and
    directory returns the same path and runs no process, however a download
    would have ended. *)
Theorem second_download_runs_nothing (wget2 : wget_result)
    (model_name output_dir : pystr) (w : dl_world) :
  In model_name known_model_names ->
  path_exists (path_join output_dir (model_name ++ str ".pt")) w = false ->
  exists url,
    get_model_url model_name = Some url
    /\ fst (download_model true WgetDone model_name output_dir w)
       = DlReturn (Some (path_join output_dir (model_name ++ str ".pt")))
    /\ fst (download_model true wget2 model_name output_dir
              (snd (download_model true WgetDone model_name output_dir w)))
       = DlReturn (Some (path_join output_dir (model_name ++ str ".pt")))
    /\ filter is_run_process
         (effects
            (snd (download_model true wget2 model_name output_dir
                    (snd (download_model true WgetDone model_name output_dir w)))))
       = filter is_run_process (effects w)
         ++ [RunProcess [str "wget"; str "-O";
                         path_join output_dir (model_name ++ str ".pt"); url]].
Proof.
  intros Hk He.
  destruct (get_model_url_known model_name Hk) as (c & url & Hu).
  exists (c :: url). split; [exact Hu |].
  rewrite (download_model_runs WgetDone model_name output_dir w c url Hu He).
  cbn zeta. cbn [fst snd].
  split; [reflexivity |].
  rewrite (download_model_finds wget2 model_name output_dir _ c url Hu)
    by apply path_exists_created.
  cbn [fst snd]. split; [reflexivity |].
  rewrite !run_processes_dl_do. cbn [is_run_process app].
  change (effects (dl_create ?p ?x)) with (effects x).
  unfold dl_create. cbn [effects].
  rewrite !run_processes_dl_do. cbn [is_run_process].
  rewrite !app_nil_r. reflexivity.
Qed.

Lemma second_download_runs_nothing_witness :
  exists url,
    get_model_url (str "base.en") = Some url
    /\ fst (download_model true WgetDone (str "base.en") (str "/models")
              {| existing := []; effects := [] |})
       = DlReturn (Some (path_join (str "/models") (str "base.en" ++ str ".pt")))
    /\ fst (download_model true (WgetFailed false) (str "base.en") (str "/models")
              (snd (download_model true WgetDone (str "base.en") (str "/models")
                      {| existing := []; effects := [] |})))
       = DlReturn (Some (path_join (str "/models") (str "base.en" ++ str ".pt")))
    /\ filter is_run_process
         (effects
            (snd (download_model true (WgetFailed false) (str "base.en") (str "/models")
                    (snd (download_model true WgetDone (str "base.en") (str "/models")
                            {| existing := []; effects := [] |})))))
       = filter is_run_process (effects {| existing := []; effects := [] |})
         ++ [RunProcess [str "wget"; str "-O";
                         path_join (str "/models") (str "base.en" ++ str ".pt"); url]].
Proof.
  apply (second_download_runs_nothing (WgetFailed false) (str "base.en")
           (str "/models") {| existing := []; effects := [] |}).
  - cbn. tauto.
  - reflexivity.
Defined.

(** X11: a failed download is not told apart from a finished one by what it
    leaves behind. When [wget] fails the call prints the failure and returns
    [None]; if the failed run left a file at the output path, the next call
    for the same model finds it, reports the model as existing and returns
    its path without running anything; if it left none, the next call runs
    the download again. *)
Theorem failed_download_then_retry (wget2 : wget_result)
    (model_name output_dir : pystr) (w : dl_world) :
  In model_name known_model_names ->
  path_exists (path_join output_dir (model_name ++ str ".pt")) w = false ->
  (forall leaves_file,
     fst (download_model true (WgetFailed leaves_file) model_name output_dir w)
     = DlReturn None)
  /\ download_model true wget2 model_name output_dir
       (snd (download_model true (WgetFailed true) model_name output_dir w))
     = (DlReturn (Some (path_join output_dir (model_name ++ str ".pt"))),
        dl_do (PrintAlreadyExists (path_join output_dir (model_name ++ str ".pt")))
          (dl_do (Makedirs output_dir)
             (snd (download_model true (WgetFailed true) model_name output_dir w))))
  /\ length
       (filter is_run_process
          (effects
             (snd (download_model true wget2 model_name output_dir
                     (snd (download_model true (WgetFailed false) model_name
                             output_dir w))))))
     = (length (filter is_run_process (effects w)) + 2)%nat.
Proof.
  intros Hk He.
  destruct (get_model_url_known model_name Hk) as (c & url & Hu).
  split; [| split].
  - intro leaves_file.
    rewrite (download_model_runs _ model_name output_dir w c url Hu He).
    reflexivity.
  - rewrite (download_model_runs (WgetFailed true) model_name output_dir w c url Hu He).
    cbn zeta. cbn [snd].
    apply (download_model_finds wget2 model_name output_dir _ c url Hu).
    rewrite path_exists_dl_do. apply path_exists_created.
  - rewrite (download_model_runs (WgetFailed false) model_name output_dir w c url Hu He).
    cbn zeta. cbn [snd].
    rewrite (download_model_runs wget2 model_name output_dir _ c url Hu)
      by (rewrite !path_exists_dl_do; exact He).
    cbn zeta.
    destruct wget2 as [| leaves2]; cbn [snd];
      [| destruct leaves2]; unfold dl_create; cbn [effects];
      rewrite ?run_processes_dl_do; cbn [effects dl_do];
      rewrite ?filter_app, ?length_app; cbn; lia.
Qed.

Lemma failed_download_then_retry_witness :
  (forall leaves_file,
     fst (download_model true (WgetFailed leaves_file) (str "tiny") (str "/models")
            {| existing := []; effects := [] |})
     = DlReturn None)
  /\ download_model true WgetDone (str "tiny") (str "/models")
       (snd (download_model true (WgetFailed true) (str "tiny") (str "/models")
               {| existing := []; effects := [] |}))
     = (DlReturn (Some (path_join (str "/models") (str "tiny" ++ str ".pt"))),
        dl_do (PrintAlreadyExists (path_join (str "/models") (str "tiny" ++ str ".pt")))
          (dl_do (Makedirs (str "/models"))
             (snd (download_model true (WgetFailed true) (str "tiny") (str "/models")
                     {| existing := []; effects := [] |}))))
  /\ length
       (filter is_run_process
          (effects
             (snd (download_model true WgetDone (str "tiny") (str "/models")
                     (snd (download_model true (WgetFailed false) (str "tiny")
                             (str "/models") {| existing := []; effects := [] |}))))))
     = (length (filter is_run_process (effects {| existing := []; effects := [] |})) + 2)%nat.
Proof.
  apply (failed_download_then_retry WgetDone (str "tiny") (str "/models")
           {| existing := []; effects := [] |}).
  - cbn. tauto.
  - reflexivity.
Defined.

(** X12: a text frame that opens more nested arrays than the interpreter has
    levels of recursion left ends the session, whatever follows the
    brackets. [json.loads] raises [RecursionError], which is no
    [json.JSONDecodeError]: the handler logs no warning, calls no [stop],
    runs its [finally] block and exits with the exception. *)
Theorem deep_nesting_ends_session (py : interpreter) (st : session)
    (n : nat) (rest : pystr) :
  receive st = Receiving ->
  (recursion_budget py < n)%nat ->
  json_loads py (repeat 91%N n ++ rest) = Raised RecursionError
  /\ receive (step py (Recv (Text (repeat 91%N n ++ rest))) st)
     = Exited (Some RecursionError)
  /\ calls (step py (Recv (Text (repeat 91%N n ++ rest))) st)
     = calls st ++ [SenderCancel; Shutdown; Join 2]
  /\ log (step py (Recv (Text (repeat 91%N n ++ rest))) st)
     = log st ++ [InfoCleaningUp].
Proof.
  intros Hr Hn.
  assert (Hj : json_loads py (repeat 91%N n ++ rest) = Raised RecursionError).
  { unfold json_loads.
    destruct n as [| n]; [lia |].
    change (skip_ws (repeat 91%N (S n) ++ rest)) with (repeat 91%N (S n) ++ rest).
    rewrite scan_deep_arrays; [reflexivity | exact Hn |].
    rewrite length_app, repeat_length. lia. }
  split; [exact Hj |].
  destruct (raised_text_frame_exits (py:=py) st _ _ Hr Hj) as (H1 & H2 & H3 & _).
  auto.
Qed.

Lemma deep_nesting_ends_session_witness :
  json_loads cpython (repeat 91%N 961 ++ str "1") = Raised RecursionError
  /\ receive (step cpython (Recv (Text (repeat 91%N 961 ++ str "1")))
                (new_session (str "peer")))
     = Exited (Some RecursionError)
  /\ calls (step cpython (Recv (Text (repeat 91%N 961 ++ str "1")))
              (new_session (str "peer")))
     = calls (new_session (str "peer")) ++ [SenderCancel; Shutdown; Join 2]
  /\ log (step cpython (Recv (Text (repeat 91%N 961 ++ str "1")))
            (new_session (str "peer")))
     = log (new_session (str "peer")) ++ [InfoCleaningUp].
Proof.
  apply (deep_nesting_ends_session cpython (new_session (str "peer")) 961
           (str "1")).
  - reflexivity.
  - apply Nat.ltb_lt. vm_compute. reflexivity.
Defined.

(** X13: a text frame that is one integer of more digits than the
    interpreter converts (more than its limit, when one is set, and more
    than 640) ends the session: [json.loads] raises a plain [ValueError],
    which the handler does not catch, so the [finally] block runs and the
    handler exits with the exception; no warning is logged. *)
Theorem long_integer_ends_session (py : interpreter) (st : session)
    (c : N) (ds : pystr) :
  receive st = Receiving ->
  is_digit c = true -> c <> 48%N -> forallb is_digit ds = true ->
  (640 < S (length ds))%nat ->
  (0 < int_max_str_digits py)%N ->
  (int_max_str_digits py < N.of_nat (S (length ds)))%N ->
  json_loads py (c :: ds) = Raised ValueError
  /\ receive (step py (Recv (Text (c :: ds))) st) = Exited (Some ValueError)
  /\ calls (step py (Recv (Text (c :: ds))) st)
     = calls st ++ [SenderCancel; Shutdown; Join 2]
  /\ log (step py (Recv (Text (c :: ds))) st) = log st ++ [InfoCleaningUp].
Proof.
  intros Hr Hc H0 Hds H640 Hpos Hmax.
  assert (Hlong : int_too_long py (S (length ds)) = true).
  { unfold int_too_long. rewrite !andb_true_iff, !N.ltb_lt. lia. }
  assert (Hj : json_loads py (c :: ds) = Raised ValueError).
  { unfold json_loads.
    assert (Hw : skip_ws (c :: ds) = c :: ds).
    { cbn [skip_ws]. unfold is_ws, is_digit in *.
      apply andb_true_iff in Hc. destruct Hc as [H1 H2].
      apply N.leb_le in H1, H2.
      replace (c =? 32)%N with false by (symmetry; apply N.eqb_neq; lia).
      replace (c =? 9)%N with false by (symmetry; apply N.eqb_neq; lia).
      replace (c =? 10)%N with false by (symmetry; apply N.eqb_neq; lia).
      replace (c =? 13)%N with false by (symmetry; apply N.eqb_neq; lia).
      reflexivity. }
    rewrite Hw.
    replace (2 * length (c :: ds) + 2)%nat
      with (S (2 * length (c :: ds) + 1)) by lia.
    rewrite (scan_long_integer (py:=py) _ _ c ds Hc H0 Hds Hlong). reflexivity. }
  split; [exact Hj |].
  destruct (raised_text_frame_exits (py:=py) st _ _ Hr Hj) as (H1 & H2 & H3 & _).
  auto.
Qed.

Lemma long_integer_ends_session_witness :
  json_loads cpython (49%N :: repeat 48%N 4300) = Raised ValueError
  /\ receive (step cpython (Recv (Text (49%N :: repeat 48%N 4300)))
                (new_session (str "peer")))
     = Exited (Some ValueError)
  /\ calls (step cpython (Recv (Text (49%N :: repeat 48%N 4300)))
              (new_session (str "peer")))
     = calls (new_session (str "peer")) ++ [SenderCancel; Shutdown; Join 2]
  /\ log (step cpython (Recv (Text (49%N :: repeat 48%N 4300)))
            (new_session (str "peer")))
     = log (new_session (str "peer")) ++ [InfoCleaningUp].
Proof.
  apply (long_integer_ends_session cpython (new_session (str "peer")) 49%N
           (repeat 48%N 4300)).
  - reflexivity.
  - reflexivity.
  - discriminate.
  - vm_compute. reflexivity.
  - apply Nat.ltb_lt. vm_compute. reflexivity.
  - reflexivity.
  - vm_compute. reflexivity.
Defined.
